(** * ts-express-genrator: the scaffolding workflow of [main.js]

    A shallow embedding of the current revision of [main.js] (the
    event-chain workflow) and the properties of its specification.

    - JavaScript strings are sequences of UTF-16 code units ([list N]);
      the regular expressions of [removeJsonComments] are run by a small
      backtracking matcher that follows the priority order of ECMAScript.
    - JSON data is an inductive type; objects are finite maps from property
      names to values (property enumeration order is not represented: no
      property below depends on it).
    - The process is a state monad over a [world] (files, directories,
      working directory and the ordered trace of observable events) whose
      results are normal completion, a thrown exception, or [process.exit].
      The file-system calls throw where those of Node.js do: reading what
      is not a file, writing to a directory, making a directory where a
      regular file is, entering what is not a directory.
    - What Node.js and the operating system provide ([toLowerCase],
      [JSON.parse], [JSON.stringify], path resolution and the behaviour of
      child processes) is an interface, [NodeRuntime]; every theorem holds
      for all its implementations. *)

From Stdlib Require Import Floats.SpecFloat Strings.Ascii Strings.String.
From stdpp Require Import gmap strings list fin_maps pretty.

Local Open Scope N_scope.
Local Open Scope list_scope.

(** ** JavaScript strings *)

Abbreviation jsstring := (list N).

(** [js "abc"] is the JavaScript string with the same (ASCII) text. *)
Definition js (s : string) : list N :=
  N_of_ascii <$> list_ascii_of_string s.

Arguments js : simpl never.

Definition dq : list N := [34].            (* the double quote character *)
Definition nl : list N := [10].            (* line feed *)
Definition backtick : list N := [96].

(** ECMAScript LineTerminator: LF, CR, U+2028, U+2029. *)
Definition is_line_terminator (c : N) : bool :=
  (c =? 10) || (c =? 13) || (c =? 0x2028) || (c =? 0x2029).

(** ECMAScript WhiteSpace together with LineTerminator: the characters
    matched by [\s] and removed by [String.prototype.trim]. *)
Definition is_space (c : N) : bool :=
  (c =? 9) || (c =? 10) || (c =? 11) || (c =? 12) || (c =? 13) || (c =? 32)
  || (c =? 0xA0) || (c =? 0x1680) || ((0x2000 <=? c) && (c <=? 0x200A))
  || (c =? 0x2028) || (c =? 0x2029) || (c =? 0x202F) || (c =? 0x205F)
  || (c =? 0x3000) || (c =? 0xFEFF).

Fixpoint trimStart (s : list N) : list N :=
  match s with
  | c :: s' => if is_space c then trimStart s' else s
  | [] => []
  end.

Definition trimEnd (s : list N) : list N := reverse (trimStart (reverse s)).

(** [String.prototype.trim]. *)
Definition trim (s : list N) : list N := trimEnd (trimStart s).
Arguments trim : simpl never.

(** ** Regular expressions

    The fragment of ECMAScript patterns that [main.js] uses, without the
    [u] flag: matching is over code units, and every starred item is a
    single-character class. *)

Inductive charclass : Type :=
  | Lit (c : N)              (* a literal character *)
  | Dot                      (* [.]: anything but a line terminator *)
  | AnyChar                  (* [[\s\S]] *)
  | Space.                   (* [\s] *)

Inductive regex : Type :=
  | Chr (p : charclass)
  | EndOfLine                (* [$] under the [m] flag *)
  | Cat (r1 r2 : regex)
  | Star (greedy : bool) (p : charclass).   (* [p*] and [p*?] *)

Definition in_class (p : charclass) (c : N) : bool :=
  match p with
  | Lit c' => c =? c'
  | Dot => negb (is_line_terminator c)
  | AnyChar => true
  | Space => is_space c
  end.

Definition orelse {A} (x y : option A) : option A :=
  match x with Some _ => x | None => y end.

(** [p*] followed by the continuation [k], with the alternatives in the
    order of the ECMAScript backtracking semantics: a greedy star first
    tries one more character, a lazy one first tries to stop. *)
Fixpoint star (greedy : bool) (p : charclass)
    (k : list N → option (list N)) (s : list N) : option (list N) :=
  match s with
  | c :: s' =>
      if in_class p c then
        if greedy then orelse (star greedy p k s') (k s)
        else orelse (k s) (star greedy p k s')
      else k s
  | [] => k s
  end.

(** [rmatch r k s] matches [r] at the start of [s] and hands the rest of the
    input to the continuation [k]; the result is that of the first
    alternative that succeeds. *)
Fixpoint rmatch (r : regex) (k : list N → option (list N)) (s : list N)
    : option (list N) :=
  match r with
  | Chr p =>
      match s with
      | c :: s' => if in_class p c then k s' else None
      | [] => None
      end
  | EndOfLine =>
      match s with
      | [] => k s
      | c :: _ => if is_line_terminator c then k s else None
      end
  | Cat r1 r2 => rmatch r1 (rmatch r2 k) s
  | Star greedy p => star greedy p k s
  end.

(** The rest of the input after the match of [r] at the start of [s]. *)
Definition match_here (r : regex) (s : list N) : option (list N) :=
  rmatch r Some s.

(** [String.prototype.replace] with a global pattern and a replacement text
    without [$] references: scan from the left, replace every match,
    resume after it (one character further after an empty match).  The
    recursion is on a bound of the length of the input. *)
Fixpoint replace_from (fuel : nat) (r : regex) (by_ : list N) (s : list N)
    : list N :=
  match fuel with
  | O => s
  | S fuel' =>
      match match_here r s with
      | Some rest =>
          if (length rest <? length s)%nat
          then by_ ++ replace_from fuel' r by_ rest
          else match s with
               | c :: s' => by_ ++ c :: replace_from fuel' r by_ s'
               | [] => by_
               end
      | None =>
          match s with
          | c :: s' => c :: replace_from fuel' r by_ s'
          | [] => []
          end
      end
  end.

Definition replace_all (r : regex) (by_ : list N) (s : list N) : list N :=
  replace_from (S (length s)) r by_ s.

(** [/\/\/.*$/gm] *)
Definition re_line_comment : regex :=
  Cat (Chr (Lit 47)) (Cat (Chr (Lit 47)) (Cat (Star true Dot) EndOfLine)).

(** [/\/\*[\s\S]*?\*\//g] *)
Definition re_block_comment : regex :=
  Cat (Chr (Lit 47))
    (Cat (Chr (Lit 42))
       (Cat (Star false AnyChar) (Cat (Chr (Lit 42)) (Chr (Lit 47))))).

(** [/,\s*}/g] *)
Definition re_comma_brace : regex :=
  Cat (Chr (Lit 44)) (Cat (Star true Space) (Chr (Lit 125))).

(** [/,\s*]/g] *)
Definition re_comma_bracket : regex :=
  Cat (Chr (Lit 44)) (Cat (Star true Space) (Chr (Lit 93))).

Definition removeJsonComments (jsonString : list N) : list N :=
  trim
    (replace_all re_comma_bracket (js "]")
       (replace_all re_comma_brace (js "}")
          (replace_all re_block_comment []
             (replace_all re_line_comment [] jsonString)))).
Arguments removeJsonComments : simpl never.


(** ** JSON data and the JavaScript values built from it *)

#[local] Set Warnings "-register-all".

(** Numbers are IEEE 754 binary64 values; the program never computes with
    them, it only tests their truthiness. *)
Inductive json : Type :=
  | JNull
  | JBool (b : bool)
  | JNum (x : spec_float)
  | JStr (s : list N)
  | JArr (l : list json)
  | JObj (m : gmap (list N) json).

(** ToBoolean. *)
Definition truthy (v : json) : bool :=
  match v with
  | JNull => false
  | JBool b => b
  | JNum (S754_zero _) | JNum S754_nan => false
  | JNum _ => true
  | JStr s => negb (bool_decide (s = []))
  | JArr _ | JObj _ => true
  end.

(** The value of [v.name] for a name that is neither an array index nor
    defined on a built-in prototype ([compilerOptions], [scripts]):
    [None] stands for [undefined]; the outer [None] is the [TypeError] of
    reading a property of [null]. *)
Definition get_named (v : json) (name : list N) : option (option json) :=
  match v with
  | JNull => None
  | JObj m => Some (m !! name)
  | JBool _ | JNum _ | JStr _ | JArr _ => Some None
  end.

Definition index_key (i : nat) : list N := js (pretty (N.of_nat i)).

(** The own enumerable properties copied by a spread [{...v}]: nothing for
    [undefined], [null], booleans and numbers, the indexed code units of a
    string, the indexed elements of an array, every property of an
    object. *)
Definition own_properties (v : option json) : gmap (list N) json :=
  match v with
  | Some (JObj m) => m
  | Some (JArr l) => list_to_map (imap (λ i x, (index_key i, x)) l)
  | Some (JStr s) => list_to_map (imap (λ i c, (index_key i, JStr [c])) s)
  | Some JNull | Some (JBool _) | Some (JNum _) | None => ∅
  end.

(** [{ ...a, ...b }] on property maps: the later spread wins. *)
Definition spread2 (a b : gmap (list N) json) : gmap (list N) json := b ∪ a.

Definition obj (l : list (string * json)) : json :=
  JObj (list_to_map (prod_map js id <$> l)).

Definition jstr (s : string) : json := JStr (js s).

(** ** The process and its environment *)

Inductive level : Type := Out | Warn | Err.   (* console.log / warn / error *)

Inductive event : Type :=
  | EvConsole (l : level) (text : list N)
  | EvQuestion (prompt answer : list N)
  | EvMkdir (path : list N)
  | EvChdir (path : list N)
  | EvWrite (path data : list N)
  | EvExec (command : list N) (quiet : bool) (status : Z).

(** [files] and [dirs] are keyed by resolved paths: a path with an entry in
    [files] is a regular file, a path of [dirs] without one is a directory.
    [trace] lists the observable events, oldest first, with paths as the
    program wrote them; a call that fails leaves no event. *)
Record world : Type := World {
  files : gmap (list N) (list N);
  dirs : gset (list N);
  cwd : list N;
  trace : list event
}.

Definition record (e : event) (w : world) : world :=
  World (files w) (dirs w) (cwd w) (trace w ++ [e]).

(** The lower case of a Basic Latin character. *)
Definition lower_ascii (c : N) : N :=
  if (65 <=? c) && (c <=? 90) then c + 32 else c.

(** What the platform provides.  On text of the Basic Latin block
    [toLowerCase] maps [A]-[Z] to [a]-[z] and leaves every other character
    alone.  [JSON_parse] returns [None] where [JSON.parse] throws a
    [SyntaxError]; [JSON_stringify data] is [JSON.stringify(data, null, 2)];
    [path_resolve cwd path] is the absolute path of [path] in the working
    directory [cwd].  [child_process command quiet w] is what the shell
    command, run with its output ignored or inherited in the world [w]
    (which records all that happened before), leaves as files and
    directories, and its exit status. *)
Class NodeRuntime : Type := {
  toLowerCase : list N → list N;
  toLowerCase_basic_latin s :
    Forall (λ c, c < 128) s → toLowerCase s = lower_ascii <$> s;
  JSON_parse : list N → option json;
  JSON_stringify : json → list N;
  path_resolve : list N → list N → list N;
  child_process :
    list N → bool → world → gmap (list N) (list N) * gset (list N) * Z
}.

Inductive exn : Type :=
  | SyntaxError
  | TypeError
  | SystemError          (* a failed file-system call *)
  | CommandFailed.       (* [execSync]: the child exited with non-zero status *)

Inductive result (A : Type) : Type :=
  | Normal (a : A)
  | Throw (e : exn)
  | Exit (code : Z).
Arguments Normal {A} a.
Arguments Throw {A} e.
Arguments Exit {A} code.

Definition M (A : Type) : Type := world → result A * world.

#[global] Instance M_ret : MRet M := λ A a w, (Normal a, w).

#[global] Instance M_bind : MBind M := λ A B f m w,
  match m w with
  | (Normal a, w') => f a w'
  | (Throw e, w') => (Throw e, w')
  | (Exit c, w') => (Exit c, w')
  end.

(** [try { m } catch { h }] *)
Definition try_catch {A} (m : M A) (h : exn → M A) : M A := λ w,
  match m w with
  | (Throw e, w') => h e w'
  | r => r
  end.

Definition throw {A} (e : exn) : M A := λ w, (Throw e, w).

Definition process_exit {A} (code : Z) : M A := λ w, (Exit code, w).

Definition emit (e : event) : M unit := λ w, (Normal (), record e w).

Definition console (l : level) (text : list N) : M unit :=
  emit (EvConsole l text).

(** [rl.question(prompt, callback)]: the callback receives the line that
    the user enters. *)
Definition question (prompt answer : list N) : M (list N) :=
  emit (EvQuestion prompt answer);; mret answer.

Section Program.
Context `{NodeRuntime}.

Definition resolved (w : world) (path : list N) : list N :=
  path_resolve (cwd w) path.

Definition existsSync (path : list N) : M bool := λ w,
  (Normal (bool_decide (is_Some (files w !! resolved w path))
           || bool_decide (resolved w path ∈ dirs w)), w).

Definition readFileSync (path : list N) : M (list N) := λ w,
  match files w !! resolved w path with
  | Some text => (Normal text, w)
  | None => (Throw SystemError, w)
  end.

Definition is_file (w : world) (path : list N) : bool :=
  bool_decide (is_Some (files w !! path)).

Definition is_directory (w : world) (path : list N) : bool :=
  negb (is_file w path) && bool_decide (path ∈ dirs w).

(** [writeFileSync(path, data)] creates or replaces the file; it throws
    ([EISDIR]) when [path] is a directory.  The directory that holds the
    file is taken to exist: [main.js] writes to the working directory, and
    to [src] after it has made it. *)
Definition writeFileSync (path data : list N) : M unit := λ w,
  if is_directory w (resolved w path) then (Throw SystemError, w)
  else
    (Normal (),
     World (<[resolved w path := data]> (files w)) (dirs w) (cwd w)
           (trace w ++ [EvWrite path data])).

(** [mkdirSync(path, { recursive: true })] does nothing to a directory that
    exists, and throws ([EEXIST]) when [path] is a regular file. *)
Definition mkdirSync (path : list N) : M unit := λ w,
  if is_file w (resolved w path) then (Throw SystemError, w)
  else
    (Normal (),
     World (files w) ({[resolved w path]} ∪ dirs w) (cwd w)
           (trace w ++ [EvMkdir path])).

(** [process.chdir(path)] throws ([ENOENT], [ENOTDIR]) when [path] is not a
    directory. *)
Definition chdir (path : list N) : M unit := λ w,
  if is_directory w (resolved w path) then
    (Normal (),
     World (files w) (dirs w) (resolved w path) (trace w ++ [EvChdir path]))
  else (Throw SystemError, w).

(** [execSync(command, { stdio: quiet ? "ignore" : "inherit" })]: runs the
    command to completion and throws when its exit status is not zero. *)
Definition execSync (command : list N) (quiet : bool) : M unit := λ w,
  let '(f, d, status) := child_process command quiet w in
  let w' := World f d (cwd w) (trace w ++ [EvExec command quiet status]) in
  if bool_decide (status = 0%Z) then (Normal (), w')
  else (Throw CommandFailed, w').

Definition JSON_parse_or_throw (text : list N) : M json :=
  match JSON_parse text with
  | Some v => mret v
  | None => throw SyntaxError
  end.

(** ** Logging *)

Definition logStep (message : list N) : M unit :=
  console Out ([0xD83D; 0xDC49] ++ js " " ++ message).

Definition logSuccess (message : list N) : M unit :=
  console Out ([0x2705] ++ js " " ++ message).

Definition logWarn (message : list N) : M unit :=
  console Warn ([0x26A0; 0xFE0F] ++ js " " ++ message).

Definition logError (message : list N) : M unit :=
  console Err ([0x274C] ++ js " " ++ message).

(** ** The steps of [main.js] *)

Definition safeExec (command : list N) (quiet : bool) : M unit :=
  try_catch (execSync command quiet)
    (λ _, logError (js "Command failed: " ++ command);; process_exit 1%Z).

Definition gitignoreContent : list N :=
  nl ++ js "# Node.js dependencies" ++ nl ++ js "node_modules/" ++ nl
  ++ nl ++ js "# Build output" ++ nl ++ js "dist/" ++ nl
  ++ nl ++ js "# Logs" ++ nl ++ js "logs/" ++ nl ++ js "*.log" ++ nl
  ++ nl ++ js "# OS files" ++ nl ++ js ".DS_Store" ++ nl ++ js "Thumbs.db"
  ++ nl.

Definition createGitAndIgnore : M unit :=
  logStep (js "Initializing Git...");;
  safeExec (js "git init") true;;
  logStep (js "Creating .gitignore...");;
  writeFileSync (js ".gitignore") (trim gitignoreContent);;
  logSuccess (js "Git initialized and .gitignore created").

Definition readJson (filePath : list N) : M json :=
  present ← existsSync filePath;
  if negb present then mret (JObj ∅)
  else
    try_catch (text ← readFileSync filePath; JSON_parse_or_throw text)
      (λ _, logWarn (js "Failed to parse " ++ filePath
                      ++ js ", using empty object.");;
            mret (JObj ∅)).

Definition writeJson (filePath : list N) (data : json) : M unit :=
  writeFileSync filePath (JSON_stringify data).

Definition default_compilerOptions : gmap (list N) json :=
  list_to_map
    [ (js "module", jstr "ESNext");
      (js "target", jstr "ES2020");
      (js "outDir", jstr "dist");
      (js "rootDir", jstr "src");
      (js "strict", JBool true);
      (js "esModuleInterop", JBool true);
      (js "moduleResolution", jstr "node") ].

(** The [tsconfig] object with the given [compilerOptions]. *)
Definition tsconfig_object (compilerOptions : gmap (list N) json) : json :=
  obj [ ("compilerOptions", JObj compilerOptions);
        ("include", JArr [jstr "src/**/*"]);
        ("exclude", JArr [jstr "node_modules"; jstr "dist"]) ]%string.

(** The body of the [try] block of [setupTsConfig]: the new value of
    [tsconfig.compilerOptions]. *)
Definition merged_compilerOptions (tsconfigPath : list N)
    : M (gmap (list N) json) :=
  content ← readFileSync tsconfigPath;
  let cleanJson := removeJsonComments content in
  parsed ← JSON_parse_or_throw cleanJson;
  match get_named parsed (js "compilerOptions") with
  | None => throw TypeError
  | Some compilerOptions =>
      mret (spread2 (own_properties compilerOptions) default_compilerOptions)
  end.

Definition setupTsConfig : M unit :=
  let tsconfigPath := js "tsconfig.json" in
  present ← existsSync tsconfigPath;
  compilerOptions ←
    (if (present : bool) then
       try_catch (merged_compilerOptions tsconfigPath)
         (λ _, logWarn (js "Failed to parse existing tsconfig.json, "
                        ++ js "using default.");;
               mret default_compilerOptions)
     else mret default_compilerOptions) : M (gmap (list N) json);
  writeJson tsconfigPath (tsconfig_object compilerOptions);;
  logSuccess (js "tsconfig.json ready").

(** A value that is a string or a number, as the [port] of
    [createSrcMain]. *)
Inductive strnum : Type :=
  | Str (s : list N)
  | Num (n : Z).

(** ToString, as applied by a template literal; for a number, the decimal
    numeral of an integer of magnitude below 10^21. *)
Definition ToString (v : strnum) : list N :=
  match v with
  | Str s => s
  | Num n => js (pretty n)
  end.

(** The text of the template literal of [createSrcMain] before and after
    its [${port}]. *)
Definition main_ts_head : list N :=
  nl ++ js "import express from " ++ dq ++ js "express" ++ dq ++ js ";" ++ nl
  ++ js "import type { Request, Response } from " ++ dq ++ js "express" ++ dq
  ++ js ";" ++ nl
  ++ nl ++ js "const app = express();" ++ nl
  ++ js "const port = process.env.PORT || ".

Definition main_ts_tail : list N :=
  js ";" ++ nl
  ++ nl ++ js "app.get(" ++ dq ++ js "/" ++ dq
  ++ js ", (req: Request, res: Response) => {" ++ nl
  ++ js "    res.send(" ++ dq ++ js "Hello, TypeScript + Express!" ++ dq
  ++ js ");" ++ nl
  ++ js "});" ++ nl
  ++ nl ++ js "app.listen(port, () => {" ++ nl
  ++ js "    console.log(" ++ backtick
  ++ js "Server running at http://localhost:${port}" ++ backtick ++ js ");"
  ++ nl
  ++ js "});" ++ nl.

Definition main_ts (port : strnum) : list N :=
  main_ts_head ++ ToString port ++ main_ts_tail.

Definition createSrcMain (port : strnum) : M unit :=
  mkdirSync (js "src");;
  writeFileSync (js "src/main.ts") (main_ts port);;
  logSuccess (js "src/main.ts created").

Definition createProjectDir (projectName : list N) : M unit :=
  mkdirSync projectName;;
  chdir projectName;;
  logSuccess (js "Project directory '" ++ projectName
              ++ js "' created and entered").

Definition npm_init_command (useDefault : bool) : list N :=
  if useDefault then js "npm init -y" else js "npm init".

Definition initNpm (useDefault : bool) : M unit :=
  logStep (js "Initializing npm...");;
  safeExec (npm_init_command useDefault) false;;
  logSuccess (js "npm initialized").

Definition setPackageModule : M unit :=
  logStep (js "Setting package type to module...");;
  safeExec (js "npm pkg set type=module") false;;
  logSuccess (js "Package type set to module").

(** [scripts.dev = ...; scripts.build = ...; scripts.start = ...] *)
Definition set_scripts (scripts : gmap (list N) json) : gmap (list N) json :=
  <[js "start" := jstr "node dist/main.js"]>
    (<[js "build" := jstr "tsc"]>
       (<[js "dev" := jstr "nodemon"]> scripts)).

(** [pkg.scripts || {}] *)
Definition scripts_or_empty (pkg : gmap (list N) json) : json :=
  match pkg !! js "scripts" with
  | Some v => if truthy v then v else JObj ∅
  | None => JObj ∅
  end.

(** The four assignments of [addPackageScripts], as seen by
    [JSON.stringify]: the data that is written, or [None] where an
    assignment throws a [TypeError].  The file is a module, hence strict
    code: creating a property on a primitive value throws, and so does
    reading [scripts] of [null]; named properties stored on an array are
    not serialised. *)
Definition assign_scripts (pkg : json) : option json :=
  match pkg with
  | JNull | JBool _ | JNum _ | JStr _ => None
  | JArr l => Some (JArr l)
  | JObj m =>
      match scripts_or_empty m with
      | JObj scripts =>
          Some (JObj (<[js "scripts" := JObj (set_scripts scripts)]> m))
      | JArr l => Some (JObj (<[js "scripts" := JArr l]> m))
      | JNull | JBool _ | JNum _ | JStr _ => None
      end
  end.

Definition addPackageScripts : M unit :=
  logStep (js "Adding scripts to package.json...");;
  let pkgPath := js "package.json" in
  pkg ← readJson pkgPath;
  match assign_scripts pkg with
  | None => throw TypeError
  | Some data =>
      writeJson pkgPath data;;
      logSuccess (js "Scripts added to package.json")
  end.

Definition nodemon_config : json :=
  obj [ ("watch", JArr [jstr "src"]);
        ("ext", jstr "ts");
        ("exec", jstr "node --loader ts-node/esm src/main.ts") ]%string.

Definition configureNodemon : M unit :=
  logStep (js "Configuring nodemon.json...");;
  writeJson (js "nodemon.json") nodemon_config;;
  logSuccess (js "nodemon.json created").

(** ** The prompts *)

(** [text || fallback] on a string. *)
Definition or_else {A} (text : list N) (some : list N → A) (fallback : A)
    : A :=
  match text with
  | [] => fallback
  | _ :: _ => some text
  end.

(** [name.trim() || "my-app"] *)
Definition projectName_of (name : list N) : list N :=
  or_else (trim name) id (js "my-app").

(** [answer.trim().toLowerCase() !== "n"] *)
Definition useDefault_of (answer : list N) : bool :=
  negb (bool_decide (toLowerCase (trim answer) = js "n")).

(** [port.trim() || 3000] *)
Definition portNumber_of (port : list N) : strnum :=
  or_else (trim port) Str (Num 3000).

(** ** The workflow: one handler per event, each emitting the next *)

Definition install_express : list N := js "npm install express".
Definition install_dev : list N :=
  js "npm install -D typescript ts-node nodemon @types/node @types/express".

Definition on_finish (projectName : list N) : M unit :=
  logSuccess (js "Project " ++ projectName ++ js " created!");;
  console Out (nl ++ js "Run:" ++ nl ++ js "  cd " ++ projectName ++ nl
               ++ js "  npm run dev" ++ nl ++ js "  npm run build" ++ nl
               ++ js "  npm start" ++ nl);;
  console Out ([0xD83C; 0xDF89] ++ js " Project created successfully!");;
  process_exit 0%Z.

Definition on_configure_nodemon (projectName : list N) : M unit :=
  configureNodemon;;
  on_finish projectName.

Definition on_add_package_scripts (projectName : list N) : M unit :=
  addPackageScripts;;
  on_configure_nodemon projectName.

Definition on_install_dependencies (projectName : list N) : M unit :=
  logStep (js "Installing dependencies...");;
  safeExec install_express false;;
  safeExec install_dev false;;
  logSuccess (js "Dependencies installed");;
  on_add_package_scripts projectName.

Definition on_initialize_git (projectName : list N) : M unit :=
  createGitAndIgnore;;
  on_install_dependencies projectName.

Definition on_setup_tsconfig (projectName port : list N) : M unit :=
  setupTsConfig;;
  port ← question (js "Enter port number (default: 3000): ") port;
  let portNumber := portNumber_of port in
  createSrcMain portNumber;;
  on_initialize_git projectName.

Definition on_use_default_npm_init (projectName answer port : list N)
    : M unit :=
  answer ← question (js "Use default npm init? (Y/n): ") answer;
  let useDefault := useDefault_of answer in
  initNpm useDefault;;
  setPackageModule;;
  on_setup_tsconfig projectName port.

Definition on_initialize_project (name answer port : list N) : M unit :=
  name ← question (js "Enter project name (default: my-app): ") name;
  let projectName := projectName_of name in
  createProjectDir projectName;;
  on_use_default_npm_init projectName answer port.

(** [createProject], for the three lines that the user enters at the
    prompts. *)
Definition createProject (name answer port : list N) : M unit :=
  on_initialize_project name answer port.

End Program.

Arguments assign_scripts : simpl never.

(** ** The vocabulary of the specification *)

(** The canonical compiler options. *)
Definition canonical_keys : list (list N) :=
  [ js "module"; js "target"; js "outDir"; js "rootDir"; js "strict";
    js "esModuleInterop"; js "moduleResolution" ].

Definition canonical (compilerOptions : gmap (list N) json) : Prop :=
  compilerOptions !! js "module" = Some (jstr "ESNext")
  ∧ compilerOptions !! js "target" = Some (jstr "ES2020")
  ∧ compilerOptions !! js "outDir" = Some (jstr "dist")
  ∧ compilerOptions !! js "rootDir" = Some (jstr "src")
  ∧ compilerOptions !! js "strict" = Some (JBool true)
  ∧ compilerOptions !! js "esModuleInterop" = Some (JBool true)
  ∧ compilerOptions !! js "moduleResolution" = Some (jstr "node").

(** ProjectParameters: what the three prompts collect. *)
Inductive init_mode : Type := Default | Interactive.

Record ProjectParameters : Type := {
  name : list N;
  initMode : init_mode;
  port : strnum
}.

Section Collected.
Context `{NodeRuntime}.

Definition collected (name answer port : list N) : ProjectParameters :=
  {| name := projectName_of name;
     initMode := if useDefault_of answer then Default else Interactive;
     port := portNumber_of port |}.

End Collected.

(** A manifest whose [scripts] entry, when there is one, is a map or a
    falsy value (which [addPackageScripts] replaces by an empty map). *)
Definition scripts_is_map (pkg : gmap (list N) json) : Prop :=
  match pkg !! js "scripts" with
  | Some (JObj _) | None => True
  | Some v => truthy v = false
  end.

(** The script entries of a manifest before [addPackageScripts]. *)
Definition scripts_of (pkg : gmap (list N) json) : gmap (list N) json :=
  match pkg !! js "scripts" with
  | Some (JObj scripts) => scripts
  | _ => ∅
  end.

(** The line that [safeExec] logs for a failed command. *)
Definition fail_message (command : list N) : list N :=
  [0x274C] ++ js " " ++ js "Command failed: " ++ command.

(** No command of the trace failed. *)
Definition clean (t : list event) : Prop :=
  ∀ command quiet status, EvExec command quiet status ∈ t → status = 0%Z.

Definition is_install (command : list N) : Prop :=
  command = install_express ∨ command = install_dev.

Definition writes (path : list N) (t : list event) : Prop :=
  ∃ data, EvWrite path data ∈ t.

#[global] Instance level_eq_dec : EqDecision level.
Proof. solve_decision. Defined.

#[global] Instance event_eq_dec : EqDecision event.
Proof. solve_decision. Defined.

(** ** Properties of runs *)

(** [runs m P]: every run of [m] relates the world before, the result and
    the world after by [P]. *)
Definition runs {A} (m : M A) (P : world → result A → world → Prop) : Prop :=
  ∀ w r w', m w = (r, w') → P w r w'.

(** Events other than commands. *)
Definition exec_free (e : event) : Prop :=
  match e with EvExec _ _ _ => False | _ => True end.

(** Events other than commands and the writing of [nodemon.json]. *)
Definition passive (e : event) : Prop :=
  match e with
  | EvExec _ _ _ => False
  | EvWrite path _ => path ≠ js "nodemon.json"
  | _ => True
  end.

(** Events other than install commands and the writing of
    [nodemon.json]. *)
Definition neutral (e : event) : Prop :=
  match e with
  | EvExec command _ _ => ¬ is_install command
  | EvWrite path _ => path ≠ js "nodemon.json"
  | _ => True
  end.

(** Events other than the two [npm init] commands. *)
Definition not_npm_init (e : event) : Prop :=
  match e with
  | EvExec command _ _ =>
      command ≠ js "npm init" ∧ command ≠ js "npm init -y"
  | _ => True
  end.

(** [m] only adds events of the class [E] to the trace. *)
Definition emits {A} (E : event → Prop) (m : M A) : Prop :=
  runs m (λ w r w', ∃ t, trace w' = trace w ++ t ∧ Forall E t).

(** [m] only adds events of the class [E] and does not exit with status 1. *)
Definition confined {A} (E : event → Prop) (m : M A) : Prop :=
  runs m (λ w r w', r ≠ Exit 1 ∧ ∃ t, trace w' = trace w ++ t ∧ Forall E t).

(** A failed install command ends the run with status 1, [nodemon.json]
    is not written, and [Pre] holds of the events before the command. *)
Definition install_rule (Pre : list event → Prop) {A} (w : world)
    (r : result A) (w' : world) : Prop :=
  ∃ t, trace w' = trace w ++ t
       ∧ ∀ t1 command quiet status t2,
           t = t1 ++ EvExec command quiet status :: t2 →
           is_install command → status ≠ 0%Z →
           r = Exit 1 ∧ ¬ writes (js "nodemon.json") t ∧ Pre t1.

Section Outcomes.
Context `{NodeRuntime}.

(** What [setupTsConfig] leaves when it writes [compilerOptions], after a
    warning or not. *)
Definition tsconfig_written (w : world) (warned : bool)
    (compilerOptions : gmap (list N) json) : result unit * world :=
  let data := JSON_stringify (tsconfig_object compilerOptions) in
  let warning :=
    EvConsole Warn
      ([0x26A0; 0xFE0F] ++ js " "
       ++ js "Failed to parse existing tsconfig.json, using default.") in
  (Normal (),
   World (<[resolved w (js "tsconfig.json") := data]> (files w)) (dirs w)
     (cwd w)
     (trace w ++ (if warned then [warning] else [])
      ++ [ EvWrite (js "tsconfig.json") data;
           EvConsole Out ([0x2705] ++ js " " ++ js "tsconfig.json ready") ])).

(** The events [t] end with a failed command and the line that reports
    it; no earlier command failed, and the files and directories of [w'] are
    those that the failed command left. *)
Definition halted_at (w : world) (t : list event) (w' : world) : Prop :=
  ∃ t0 command quiet status before,
    t = t0 ++ [EvExec command quiet status;
               EvConsole Err (fail_message command)]
    ∧ status ≠ 0%Z
    ∧ clean t0
    ∧ trace before = trace w ++ t0
    ∧ child_process command quiet before = (files w', dirs w', status)
    ∧ cwd w' = cwd before.

(** Either the run exits with status 1 right after a failed command, or no
    command failed. *)
Definition fatal_discipline {A} (w : world) (r : result A) (w' : world)
    : Prop :=
  ∃ t, trace w' = trace w ++ t
       ∧ ((r = Exit 1 ∧ halted_at w t w') ∨ (r ≠ Exit 1 ∧ clean t)).

End Outcomes.

(** ** A concrete platform for the worked examples

    Lower-casing of Basic Latin, a parser given by a table of texts, paths
    joined with a slash, and commands that leave the file system alone and
    exit with the status that [status] gives them.  Serialisation is not
    modelled: every value is written as the same placeholder text. *)
Module Scenario.

Definition runtime (table : list (list N * json)) (status : list N → Z)
    : NodeRuntime :=
  {| toLowerCase := fmap lower_ascii;
     toLowerCase_basic_latin := λ s _, eq_refl;
     JSON_parse := λ text, (list_to_map table : gmap (list N) json) !! text;
     JSON_stringify := λ _, js "<json>";
     path_resolve := λ cwd path, cwd ++ js "/" ++ path;
     child_process := λ command _ w, (files w, dirs w, status command) |}.

Definition all_succeed : list N → Z := λ _, 0%Z.

Definition install_fails : list N → Z :=
  λ command, if bool_decide (command = install_express) then 1%Z else 0%Z.

Definition empty_world : world := World ∅ ∅ (js "/home/dev") [].

(** [{"compilerOptions": {"module": "commonjs", "sourceMap": true}}] *)
Definition old_tsconfig_text : list N :=
  js "{" ++ dq ++ js "compilerOptions" ++ dq ++ js ": {" ++ dq ++ js "module"
  ++ dq ++ js ": " ++ dq ++ js "commonjs" ++ dq ++ js ", " ++ dq
  ++ js "sourceMap" ++ dq ++ js ": true}}".

Definition old_compilerOptions : gmap (list N) json :=
  list_to_map [ (js "module", jstr "commonjs"); (js "sourceMap", JBool true) ].

Definition old_tsconfig : gmap (list N) json :=
  list_to_map [ (js "compilerOptions", JObj old_compilerOptions) ].

(** [{"name": "demo", "scripts": {"lint": "eslint ."}}] *)
Definition old_manifest_text : list N :=
  js "{" ++ dq ++ js "name" ++ dq ++ js ": " ++ dq ++ js "demo" ++ dq
  ++ js ", " ++ dq ++ js "scripts" ++ dq ++ js ": {" ++ dq ++ js "lint" ++ dq
  ++ js ": " ++ dq ++ js "eslint ." ++ dq ++ js "}}".

Definition old_manifest : gmap (list N) json :=
  list_to_map
    [ (js "name", jstr "demo");
      (js "scripts", JObj (list_to_map [ (js "lint", jstr "eslint .") ])) ].

(** [{"scripts": true}] *)
Definition odd_manifest_text : list N :=
  js "{" ++ dq ++ js "scripts" ++ dq ++ js ": true}".

Definition odd_manifest : gmap (list N) json :=
  list_to_map [ (js "scripts", JBool true) ].

(** [{"compilerOptions": {"sourceRoot": "https://example.com/src"}}] *)
Definition url_tsconfig_text : list N :=
  js "{" ++ dq ++ js "compilerOptions" ++ dq ++ js ": {" ++ dq
  ++ js "sourceRoot" ++ dq ++ js ": " ++ dq ++ js "https://example.com/src"
  ++ dq ++ js "}}".

Definition url_tsconfig : gmap (list N) json :=
  list_to_map
    [ (js "compilerOptions",
       JObj (list_to_map
               [ (js "sourceRoot", jstr "https://example.com/src") ])) ].

(** [{"compilerOptions": {"rootDirs": ["src/**/*"]}}] *)
Definition glob_tsconfig_text : list N :=
  js "{" ++ dq ++ js "compilerOptions" ++ dq ++ js ": {" ++ dq
  ++ js "rootDirs" ++ dq ++ js ": [" ++ dq ++ js "src/**/*" ++ dq ++ js "]}}".

Definition glob_tsconfig : gmap (list N) json :=
  list_to_map
    [ (js "compilerOptions",
       JObj (list_to_map [ (js "rootDirs", JArr [jstr "src/**/*"]) ])) ].

(** [{"compilerOptions": {"rootDirs": ["src*"]}}] *)
Definition star_tsconfig_text : list N :=
  js "{" ++ dq ++ js "compilerOptions" ++ dq ++ js ": {" ++ dq
  ++ js "rootDirs" ++ dq ++ js ": [" ++ dq ++ js "src*" ++ dq ++ js "]}}".

Definition star_tsconfig : gmap (list N) json :=
  list_to_map
    [ (js "compilerOptions",
       JObj (list_to_map [ (js "rootDirs", JArr [jstr "src*"]) ])) ].

(** The texts that parse, and their values; any other text, such as one
    that stops inside a string, does not parse. *)
Definition parse_table : list (list N * json) :=
  [ (old_tsconfig_text, JObj old_tsconfig);
    (url_tsconfig_text, JObj url_tsconfig);
    (glob_tsconfig_text, JObj glob_tsconfig);
    (star_tsconfig_text, JObj star_tsconfig);
    (old_manifest_text, JObj old_manifest);
    (odd_manifest_text, JObj odd_manifest) ].

(** A project directory that already holds a [tsconfig.json] and a
    manifest. *)
Definition project_world : world :=
  World (list_to_map
           [ (js "/home/dev/tsconfig.json", old_tsconfig_text);
             (js "/home/dev/package.json", old_manifest_text) ])
        ∅ (js "/home/dev") [].

(** A project directory whose [tsconfig.json] sets [sourceRoot] to a
    URL. *)
Definition url_world : world :=
  World (list_to_map [ (js "/home/dev/tsconfig.json", url_tsconfig_text) ])
        ∅ (js "/home/dev") [].

(** A project directory whose [tsconfig.json] sets [rootDirs] to a glob
    pattern. *)
Definition glob_world : world :=
  World (list_to_map [ (js "/home/dev/tsconfig.json", glob_tsconfig_text) ])
        ∅ (js "/home/dev") [].

(** A project directory in which [src] is a regular file. *)
Definition src_file_world : world :=
  World (list_to_map [ (js "/home/dev/src", js "notes") ])
        ∅ (js "/home/dev") [].

(** A project directory whose manifest has a [scripts] entry that is not a
    map. *)
Definition odd_world : world :=
  World (list_to_map [ (js "/home/dev/package.json", odd_manifest_text) ])
        ∅ (js "/home/dev") [].

(** A project directory whose [tsconfig.json] is truncated. *)
Definition broken_world : world :=
  World (list_to_map
           [ (js "/home/dev/tsconfig.json",
              js "{ " ++ dq ++ js "compilerOptions") ])
        ∅ (js "/home/dev") [].

(** The platform on which every command succeeds and the texts of
    [parse_table] parse. *)
Definition files_runtime : NodeRuntime := runtime parse_table all_succeed.

(** The platform on which [npm install express] fails. *)
Definition failing_runtime : NodeRuntime := runtime [] install_fails.

(** The run in which [npm install express] fails. *)
Definition failed_run : result unit * world :=
  createProject (H := failing_runtime)
    (js "demo") (js "") (js "8080") empty_world.

End Scenario.

(** ** Vocabulary of the properties of comment stripping *)

(** [p] occurs in [s]. *)
Definition occurs (p s : list N) : Prop := ∃ a b, s = a ++ p ++ b.

(** The text from the first line terminator on. *)
Fixpoint rest_of_line (s : list N) : list N :=
  match s with
  | c :: s' => if is_line_terminator c then s else rest_of_line s'
  | [] => []
  end.


(** The two replacement shapes of [removeJsonComments]. *)
Definition slash_safe (c0 : N) (by_ : list N) : Prop :=
  (by_ = [] ∧ c0 = 47) ∨ (∃ b, by_ = [b] ∧ b ≠ 47).

(** Recognisers: [contains p s] holds when [p] occurs in [s];
    [has_trailing_comma s] when [s] has a comma that is followed, after any
    white space, by a closing brace or bracket. *)
Fixpoint starts_with (p s : list N) : bool :=
  match p, s with
  | [], _ => true
  | x :: p', y :: s' => (x =? y) && starts_with p' s'
  | _ :: _, [] => false
  end.

Fixpoint contains (p s : list N) : bool :=
  starts_with p s
  || match s with
     | _ :: s' => contains p s'
     | [] => false
     end.

Fixpoint closes_after_space (s : list N) : bool :=
  match s with
  | c :: s' =>
      (c =? 125) || (c =? 93) || (is_space c && closes_after_space s')
  | [] => false
  end.

Fixpoint has_trailing_comma (s : list N) : bool :=
  match s with
  | c :: s' => ((c =? 44) && closes_after_space s') || has_trailing_comma s'
  | [] => false
  end.


(** ** Vocabulary of the further properties of the steps *)

Arguments is_file : simpl never.
Arguments is_directory : simpl never.

(** The document that [setupTsConfig] writes, for the compiler options
    [compilerOptions], and the canonical defaults, written out. *)
Definition tsconfig_document (compilerOptions : gmap (list N) json) : json :=
  JObj (list_to_map
          [ (js "compilerOptions", JObj compilerOptions);
            (js "include", JArr [JStr (js "src/**/*")]);
            (js "exclude",
             JArr [JStr (js "node_modules"); JStr (js "dist")]) ]).

Definition canonical_defaults : gmap (list N) json :=
  list_to_map
    [ (js "module", JStr (js "ESNext"));
      (js "target", JStr (js "ES2020"));
      (js "outDir", JStr (js "dist"));
      (js "rootDir", JStr (js "src"));
      (js "strict", JBool true);
      (js "esModuleInterop", JBool true);
      (js "moduleResolution", JStr (js "node")) ].

(** The three scripts, alone in a [scripts] map. *)
Definition fixed_scripts : gmap (list N) json :=
  list_to_map
    [ (js "dev", JStr (js "nodemon"));
      (js "build", JStr (js "tsc"));
      (js "start", JStr (js "node dist/main.js")) ].

(** The three scripts are in [scripts]. *)
Definition has_fixed_scripts (scripts : gmap (list N) json) : Prop :=
  scripts !! js "dev" = Some (JStr (js "nodemon"))
  ∧ scripts !! js "build" = Some (JStr (js "tsc"))
  ∧ scripts !! js "start" = Some (JStr (js "node dist/main.js")).

(** A truthy value that is not an object: [true], a number other than zero
    and [NaN], a string that is not empty. *)
Definition truthy_scalar (v : json) : Prop :=
  truthy v = true
  ∧ match v with JBool _ | JNum _ | JStr _ => True | _ => False end.

(** The lines of the log that the statements below name. *)
Definition parse_warning (filePath : list N) : event :=
  EvConsole Warn
    ([0x26A0; 0xFE0F] ++ js " " ++ js "Failed to parse " ++ filePath
     ++ js ", using empty object.").

Definition tsconfig_warning : event :=
  EvConsole Warn
    ([0x26A0; 0xFE0F] ++ js " "
     ++ js "Failed to parse existing tsconfig.json, using default.").

Definition tsconfig_ready : event :=
  EvConsole Out ([0x2705] ++ js " " ++ js "tsconfig.json ready").

Definition scripts_step : event :=
  EvConsole Out
    ([0xD83D; 0xDC49] ++ js " " ++ js "Adding scripts to package.json...").

Definition scripts_done : event :=
  EvConsole Out ([0x2705] ++ js " " ++ js "Scripts added to package.json").

(** ** Vocabulary of the order of the workflow *)

(** The actions of a run that reach outside the process, without the text
    that is printed, the data that is written, the lines that are entered
    and the exit statuses of the commands. *)
Inductive step : Type :=
  | Asked (prompt : list N)
  | Made (path : list N)
  | Entered (path : list N)
  | Ran (command : list N) (quiet : bool)
  | Wrote (path : list N).

Definition step_of (e : event) : option step :=
  match e with
  | EvConsole _ _ => None
  | EvQuestion prompt _ => Some (Asked prompt)
  | EvMkdir path => Some (Made path)
  | EvChdir path => Some (Entered path)
  | EvWrite path _ => Some (Wrote path)
  | EvExec command quiet _ => Some (Ran command quiet)
  end.

Definition outline (t : list event) : list step := omap step_of t.

(** The events [t] end with a failed command and the line that reports it;
    no earlier command failed. *)
Definition failed_last (t : list event) : Prop :=
  ∃ t0 command quiet status,
    t = t0 ++ [EvExec command quiet status;
               EvConsole Err (fail_message command)]
    ∧ status ≠ 0%Z
    ∧ clean t0.

(** A run along the actions [l]: it completes them all (and exits with
    status 0 where [final]), or stops with status 1 after a failed command,
    or throws the exception [e] after the actions [o], for a pair [(e, o)]
    of [th]. *)
Definition follows (l : list step) (th : list (exn * list step))
    (final : bool) {A} (w : world) (r : result A) (w' : world) : Prop :=
  ∃ t, trace w' = trace w ++ t
       ∧ match r with
         | Normal _ => final = false ∧ outline t = l ∧ clean t
         | Throw e => (e, outline t) ∈ th ∧ clean t
         | Exit code =>
             (code = 0%Z ∧ final = true ∧ outline t = l ∧ clean t)
             ∨ (code = 1%Z ∧ outline t `prefix_of` l ∧ failed_last t)
         end.

(** [m] leaves the working directory as it is. *)
Definition keeps_cwd {A} (m : M A) : Prop :=
  runs m (λ w r w', cwd w' = cwd w).

(** Where [m] exits with status 0, [P] holds of the world it leaves. *)
Definition on_success {A} (P : world → Prop) (m : M A) : Prop :=
  runs m (λ w r w', r = Exit 0 → P w').

(** The text of [.gitignore]. *)
Definition gitignore_text : list N :=
  js "# Node.js dependencies" ++ nl ++ js "node_modules/" ++ nl
  ++ nl ++ js "# Build output" ++ nl ++ js "dist/" ++ nl
  ++ nl ++ js "# Logs" ++ nl ++ js "logs/" ++ nl ++ js "*.log" ++ nl
  ++ nl ++ js "# OS files" ++ nl ++ js ".DS_Store" ++ nl ++ js "Thumbs.db".

Section Plan.
Context `{NodeRuntime}.

(** The actions of [createProject] in the order of its handlers. *)
Definition workflow_plan (name answer : list N) : list step :=
  let projectName := projectName_of name in
  [ Asked (js "Enter project name (default: my-app): ");
    Made projectName;
    Entered projectName;
    Asked (js "Use default npm init? (Y/n): ");
    Ran (npm_init_command (useDefault_of answer)) false;
    Ran (js "npm pkg set type=module") false;
    Wrote (js "tsconfig.json");
    Asked (js "Enter port number (default: 3000): ");
    Made (js "src");
    Wrote (js "src/main.ts");
    Ran (js "git init") true;
    Wrote (js ".gitignore");
    Ran install_express false;
    Ran install_dev false;
    Wrote (js "package.json");
    Wrote (js "nodemon.json") ].

(** Where an exception can leave [createProject]: a [SystemError] at a
    file-system call that fails, a [TypeError] in [addPackageScripts]; each
    with the number of actions done before. *)
Definition workflow_throws (name answer : list N)
    : list (exn * list step) :=
  let plan := workflow_plan name answer in
  [ (SystemError, take 1 plan);
    (SystemError, take 2 plan);
    (SystemError, take 6 plan);
    (SystemError, take 8 plan);
    (SystemError, take 9 plan);
    (SystemError, take 11 plan);
    (TypeError, take 14 plan);
    (SystemError, take 14 plan);
    (SystemError, take 15 plan) ].

(** What [createProject] writes to [tsconfig.json], [src/main.ts],
    [.gitignore] and [nodemon.json], for the line [port] entered at the
    third prompt. *)
Definition written_as (port : list N) (e : event) : Prop :=
  match e with
  | EvWrite path data =>
      (path = js "tsconfig.json" →
       ∃ compilerOptions,
         canonical compilerOptions
         ∧ data = JSON_stringify (tsconfig_document compilerOptions))
      ∧ (path = js "src/main.ts" →
         data = main_ts_head
                ++ (if decide (trim port = []) then js "3000" else trim port)
                ++ main_ts_tail)
      ∧ (path = js ".gitignore" → data = gitignore_text)
      ∧ (path = js "nodemon.json" →
         data = JSON_stringify
                  (JObj (list_to_map
                           [ (js "watch", JArr [JStr (js "src")]);
                             (js "ext", JStr (js "ts"));
                             (js "exec",
                              JStr (js "node --loader ts-node/esm src/main.ts"))
                           ])))
  | _ => True
  end.

(** [nodemon.json] of the working directory holds the fixed
    configuration. *)
Definition has_nodemon_config (w : world) : Prop :=
  files w !! resolved w (js "nodemon.json")
  = Some (JSON_stringify
            (JObj (list_to_map
                     [ (js "watch", JArr [JStr (js "src")]);
                       (js "ext", JStr (js "ts"));
                       (js "exec",
                        JStr (js "node --loader ts-node/esm src/main.ts")) ]))).

End Plan.

(** ** Further worlds for the worked examples *)

Module Cases.
Import Scenario.

(** A [tsconfig.json] whose options hold the canonical values and one
    more: [{"compilerOptions": {"module": "ESNext", ..., "sourceMap":
    true}}]. *)
Definition canonical_tsconfig_text : list N :=
  js "{" ++ dq ++ js "compilerOptions" ++ dq ++ js ": {"
  ++ dq ++ js "module" ++ dq ++ js ": " ++ dq ++ js "ESNext" ++ dq ++ js ", "
  ++ dq ++ js "target" ++ dq ++ js ": " ++ dq ++ js "ES2020" ++ dq ++ js ", "
  ++ dq ++ js "outDir" ++ dq ++ js ": " ++ dq ++ js "dist" ++ dq ++ js ", "
  ++ dq ++ js "rootDir" ++ dq ++ js ": " ++ dq ++ js "src" ++ dq ++ js ", "
  ++ dq ++ js "strict" ++ dq ++ js ": true, "
  ++ dq ++ js "esModuleInterop" ++ dq ++ js ": true, "
  ++ dq ++ js "moduleResolution" ++ dq ++ js ": " ++ dq ++ js "node" ++ dq
  ++ js ", " ++ dq ++ js "sourceMap" ++ dq ++ js ": true}}".

Definition canonical_options : gmap (list N) json :=
  <[js "sourceMap" := JBool true]> canonical_defaults.

Definition canonical_tsconfig : gmap (list N) json :=
  list_to_map [ (js "compilerOptions", JObj canonical_options) ].

(** [{"scripts": []}] *)
Definition array_manifest_text : list N :=
  js "{" ++ dq ++ js "scripts" ++ dq ++ js ": []}".

Definition array_manifest : gmap (list N) json :=
  list_to_map [ (js "scripts", JArr []) ].

(** [{"name": "demo", "scripts": {"dev": "nodemon", "build": "tsc",
    "start": "node dist/main.js"}}] *)
Definition injected_manifest_text : list N :=
  js "{" ++ dq ++ js "name" ++ dq ++ js ": " ++ dq ++ js "demo" ++ dq
  ++ js ", " ++ dq ++ js "scripts" ++ dq ++ js ": {"
  ++ dq ++ js "dev" ++ dq ++ js ": " ++ dq ++ js "nodemon" ++ dq ++ js ", "
  ++ dq ++ js "build" ++ dq ++ js ": " ++ dq ++ js "tsc" ++ dq ++ js ", "
  ++ dq ++ js "start" ++ dq ++ js ": " ++ dq ++ js "node dist/main.js" ++ dq
  ++ js "}}".

Definition injected_manifest : gmap (list N) json :=
  list_to_map
    [ (js "name", JStr (js "demo")); (js "scripts", JObj fixed_scripts) ].

(** The platform of [Scenario] with these texts added to those that
    parse. *)
Definition platform : NodeRuntime :=
  runtime
    (parse_table
     ++ [ (canonical_tsconfig_text, JObj canonical_tsconfig);
          (array_manifest_text, JObj array_manifest);
          (injected_manifest_text, JObj injected_manifest) ])
    all_succeed.

Definition in_project (name text : list N) : world :=
  World (list_to_map [ (js "/home/dev/" ++ name, text) ]) ∅ (js "/home/dev") [].

(** The run for the answers [demo], blank and [8080] in an empty directory,
    every command succeeding. *)
Definition full_run : result unit * world :=
  createProject (H := platform) (js "demo") (js "") (js "8080") empty_world.

End Cases.

(** * Properties *)

#[local] Set Warnings "-clear-no-such-hyp".

Example removeJsonComments_sample :
  removeJsonComments
    (js "  { // note" ++ nl ++ js "  /* a" ++ nl ++ js " b */ [1, 2, ], }  ")
  = js "{ " ++ nl ++ js "   [1, 2]}".
Proof. vm_compute. reflexivity. Qed.

(** ** The configuration merge *)

Lemma default_lookup_None (k : list N) :
  k ∉ canonical_keys → default_compilerOptions !! k = None.
Proof. intros Hk. apply not_elem_of_list_to_map_1. exact Hk. Qed.

Lemma spread2_default (a : gmap (list N) json) (k : list N) (v : json) :
  default_compilerOptions !! k = Some v →
  spread2 a default_compilerOptions !! k = Some v.
Proof. intros Hk. unfold spread2. by apply lookup_union_Some_l. Qed.

Lemma spread2_other (a : gmap (list N) json) (k : list N) :
  k ∉ canonical_keys → spread2 a default_compilerOptions !! k = a !! k.
Proof.
  intros Hk. unfold spread2. apply lookup_union_r. by apply default_lookup_None.
Qed.

Lemma canonical_default : canonical default_compilerOptions.
Proof. repeat split; reflexivity. Qed.

Lemma canonical_spread2 (a : gmap (list N) json) :
  canonical (spread2 a default_compilerOptions).
Proof. repeat split; apply spread2_default; reflexivity. Qed.

Ltac munfold :=
  unfold mbind, M_bind, mret, M_ret, try_catch, throw, process_exit,
    question, console, emit, record in *.

Section Merge.
Context `{NodeRuntime}.

Ltac run_setupTsConfig :=
  unfold setupTsConfig, existsSync, merged_compilerOptions, readFileSync,
    JSON_parse_or_throw, writeJson, writeFileSync, is_directory, is_file,
    logWarn, logSuccess, tsconfig_written;
  munfold.

Lemma setupTsConfig_parsed (w : world) (content : list N) (parsed : json) :
  files w !! resolved w (js "tsconfig.json") = Some content →
  JSON_parse (removeJsonComments content) = Some parsed →
  setupTsConfig w =
    match get_named parsed (js "compilerOptions") with
    | Some previous =>
        tsconfig_written w false
          (spread2 (own_properties previous) default_compilerOptions)
    | None => tsconfig_written w true default_compilerOptions
    end.
Proof.
  intros Hfile Hparse. run_setupTsConfig. unfold resolved in *.
  rewrite Hfile. cbn. rewrite Hfile, Hparse.
  destruct (get_named parsed (js "compilerOptions")); cbn;
    rewrite Hfile; cbn; by rewrite <- ?app_assoc.
Qed.

Lemma setupTsConfig_unparsed (w : world) (content : list N) :
  files w !! resolved w (js "tsconfig.json") = Some content →
  JSON_parse (removeJsonComments content) = None →
  setupTsConfig w = tsconfig_written w true default_compilerOptions.
Proof.
  intros Hfile Hparse. run_setupTsConfig. unfold resolved in *.
  rewrite Hfile. cbn. rewrite Hfile, Hparse. cbn. rewrite Hfile. cbn.
  by rewrite <- ?app_assoc.
Qed.

(** The object literal of [setupTsConfig], written out. *)
Lemma tsconfig_object_eq (compilerOptions : gmap (list N) json) :
  tsconfig_object compilerOptions
  = JObj (list_to_map
            [ (js "compilerOptions", JObj compilerOptions);
              (js "include", JArr [JStr (js "src/**/*")]);
              (js "exclude",
               JArr [JStr (js "node_modules"); JStr (js "dist")]) ]).
Proof. reflexivity. Qed.

Lemma default_compilerOptions_eq :
  default_compilerOptions
  = list_to_map
      [ (js "module", JStr (js "ESNext"));
        (js "target", JStr (js "ES2020"));
        (js "outDir", JStr (js "dist"));
        (js "rootDir", JStr (js "src"));
        (js "strict", JBool true);
        (js "esModuleInterop", JBool true);
        (js "moduleResolution", JStr (js "node")) ].
Proof. reflexivity. Qed.

(** C1. When the existing [tsconfig.json] parses (after the comments and
    trailing commas are stripped), [setupTsConfig] completes and writes the
    document with the three members [compilerOptions], [include] and
    [exclude], whose [compilerOptions] hold the canonical value at each of
    the seven canonical keys, whatever the parsed file held there. *)
Theorem setupTsConfig_canonical_keys (w : world) (content : list N)
    (parsed : json) :
  files w !! resolved w (js "tsconfig.json") = Some content →
  JSON_parse (removeJsonComments content) = Some parsed →
  ∃ compilerOptions w',
    setupTsConfig w = (Normal (), w')
    ∧ files w' =
        <[resolved w (js "tsconfig.json") :=
            JSON_stringify
              (JObj (list_to_map
                       [ (js "compilerOptions", JObj compilerOptions);
                         (js "include", JArr [JStr (js "src/**/*")]);
                         (js "exclude",
                          JArr [JStr (js "node_modules");
                                JStr (js "dist")]) ]))]> (files w)
    ∧ compilerOptions !! js "module" = Some (JStr (js "ESNext"))
    ∧ compilerOptions !! js "target" = Some (JStr (js "ES2020"))
    ∧ compilerOptions !! js "outDir" = Some (JStr (js "dist"))
    ∧ compilerOptions !! js "rootDir" = Some (JStr (js "src"))
    ∧ compilerOptions !! js "strict" = Some (JBool true)
    ∧ compilerOptions !! js "esModuleInterop" = Some (JBool true)
    ∧ compilerOptions !! js "moduleResolution" = Some (JStr (js "node")).
Proof.
  intros Hfile Hparse.
  rewrite (setupTsConfig_parsed w content parsed Hfile Hparse).
  destruct (get_named parsed (js "compilerOptions")) as [previous|].
  - exists (spread2 (own_properties previous) default_compilerOptions).
    eexists. split; [reflexivity|].
    split; [cbn; by rewrite tsconfig_object_eq|].
    apply canonical_spread2.
  - exists default_compilerOptions.
    eexists. split; [reflexivity|].
    split; [cbn; by rewrite tsconfig_object_eq|].
    apply canonical_default.
Qed.

(** What the merge keeps: every option that the stripped text of the
    existing [tsconfig.json] holds in [compilerOptions] under a key that is
    not canonical is in the [compilerOptions] that [setupTsConfig] writes,
    with the same value.  (For a [compilerOptions] that is a map,
    [own_properties] is that map.) *)
Lemma setupTsConfig_keeps_stripped_options (w : world) (content : list N)
    (parsed : json) (previous : option json) (k : list N) (v : json) :
  files w !! resolved w (js "tsconfig.json") = Some content →
  JSON_parse (removeJsonComments content) = Some parsed →
  get_named parsed (js "compilerOptions") = Some previous →
  own_properties previous !! k = Some v →
  k ∉ canonical_keys →
  ∃ compilerOptions w',
    setupTsConfig w = (Normal (), w')
    ∧ files w' =
        <[resolved w (js "tsconfig.json") :=
            JSON_stringify
              (JObj (list_to_map
                       [ (js "compilerOptions", JObj compilerOptions);
                         (js "include", JArr [JStr (js "src/**/*")]);
                         (js "exclude",
                          JArr [JStr (js "node_modules");
                                JStr (js "dist")]) ]))]> (files w)
    ∧ compilerOptions !! k = Some v.
Proof.
  intros Hfile Hparse Hprevious Hk Hother.
  rewrite (setupTsConfig_parsed w content _ Hfile Hparse), Hprevious.
  exists (spread2 (own_properties previous) default_compilerOptions).
  eexists. split; [reflexivity|].
  split; [cbn; by rewrite tsconfig_object_eq|].
  rewrite spread2_other by done. exact Hk.
Qed.

(** C2. The merge does not keep every option of a valid file.  When the
    text of the existing [tsconfig.json] is valid JSON whose
    [compilerOptions] hold an option under a key [k] that is not canonical,
    but the text that [removeJsonComments] makes of it does not parse (it
    cuts at a [//] inside a string value), [setupTsConfig] warns and writes
    the canonical defaults only: the option [k] is dropped. *)
Theorem setupTsConfig_drops_option_of_valid_file (w : world)
    (content : list N) (parsed : json) (previous : option json)
    (k : list N) (v : json) :
  files w !! resolved w (js "tsconfig.json") = Some content →
  JSON_parse content = Some parsed →
  get_named parsed (js "compilerOptions") = Some previous →
  own_properties previous !! k = Some v →
  k ∉ canonical_keys →
  JSON_parse (removeJsonComments content) = None →
  ∃ (compilerOptions : gmap (list N) json) w',
    setupTsConfig w = (Normal (), w')
    ∧ files w' =
        <[resolved w (js "tsconfig.json") :=
            JSON_stringify
              (JObj (list_to_map
                       [ (js "compilerOptions", JObj compilerOptions);
                         (js "include", JArr [JStr (js "src/**/*")]);
                         (js "exclude",
                          JArr [JStr (js "node_modules");
                                JStr (js "dist")]) ]))]> (files w)
    ∧ compilerOptions !! k = None
    ∧ EvConsole Warn
        ([0x26A0; 0xFE0F] ++ js " "
         ++ js "Failed to parse existing tsconfig.json, using default.")
      ∈ trace w'.
Proof.
  intros Hfile _ _ _ Hother Hstripped.
  rewrite (setupTsConfig_unparsed w content Hfile Hstripped).
  exists default_compilerOptions. eexists. split; [reflexivity|].
  split; [cbn; by rewrite tsconfig_object_eq|].
  split; [by apply default_lookup_None|].
  cbn. set_solver.
Qed.

(** C3. When the text of the existing [tsconfig.json] does not parse,
    [setupTsConfig] logs a warning, writes the document whose
    [compilerOptions] are the seven canonical defaults and nothing else,
    and completes normally, so that the [setup-tsconfig] handler goes on
    with the port prompt. *)
Theorem setupTsConfig_unparsable_falls_back (w : world) (content : list N) :
  files w !! resolved w (js "tsconfig.json") = Some content →
  JSON_parse (removeJsonComments content) = None →
  let data :=
    JSON_stringify
      (JObj (list_to_map
               [ (js "compilerOptions",
                  JObj (list_to_map
                          [ (js "module", JStr (js "ESNext"));
                            (js "target", JStr (js "ES2020"));
                            (js "outDir", JStr (js "dist"));
                            (js "rootDir", JStr (js "src"));
                            (js "strict", JBool true);
                            (js "esModuleInterop", JBool true);
                            (js "moduleResolution", JStr (js "node")) ]));
                 (js "include", JArr [JStr (js "src/**/*")]);
                 (js "exclude",
                  JArr [JStr (js "node_modules"); JStr (js "dist")]) ])) in
  let w' :=
    World (<[resolved w (js "tsconfig.json") := data]> (files w)) (dirs w)
      (cwd w)
      (trace w
       ++ [ EvConsole Warn
              ([0x26A0; 0xFE0F] ++ js " "
               ++ js "Failed to parse existing tsconfig.json, using default.");
            EvWrite (js "tsconfig.json") data;
            EvConsole Out ([0x2705] ++ js " " ++ js "tsconfig.json ready") ]) in
  setupTsConfig w = (Normal (), w')
  ∧ ∀ projectName port,
      on_setup_tsconfig projectName port w =
        (port ← question (js "Enter port number (default: 3000): ") port;
         createSrcMain (portNumber_of port);;
         on_initialize_git projectName) w'.
Proof.
  intros Hfile Hparse data w'.
  assert (setupTsConfig w = (Normal (), w')) as Hrun.
  { rewrite (setupTsConfig_unparsed w content Hfile Hparse).
    unfold tsconfig_written, w', data.
    by rewrite tsconfig_object_eq, default_compilerOptions_eq. }
  split; [exact Hrun|].
  intros projectName port. unfold on_setup_tsconfig.
  unfold mbind at 1, M_bind at 1. by rewrite Hrun.
Qed.

End Merge.

(** ** The package scripts *)

Section Scripts.
Context `{NodeRuntime}.

Lemma set_scripts_fixed (scripts : gmap (list N) json) :
  set_scripts scripts !! js "dev" = Some (jstr "nodemon")
  ∧ set_scripts scripts !! js "build" = Some (jstr "tsc")
  ∧ set_scripts scripts !! js "start" = Some (jstr "node dist/main.js").
Proof.
  unfold set_scripts. repeat split.
  - rewrite !lookup_insert_ne by done. apply lookup_insert_eq.
  - rewrite lookup_insert_ne by done. apply lookup_insert_eq.
  - apply lookup_insert_eq.
Qed.

Lemma set_scripts_other (scripts : gmap (list N) json) (k : list N) :
  k ∉ [js "dev"; js "build"; js "start"] →
  set_scripts scripts !! k = scripts !! k.
Proof.
  intros Hk. unfold set_scripts.
  rewrite !lookup_insert_ne; [done|..]; intros <-; apply Hk; set_solver.
Qed.

Lemma assign_scripts_map (pkg : gmap (list N) json) :
  scripts_is_map pkg →
  assign_scripts (JObj pkg) =
    Some (JObj (<[js "scripts" := JObj (set_scripts (scripts_of pkg))]> pkg)).
Proof.
  unfold scripts_is_map, assign_scripts, scripts_or_empty, scripts_of.
  destruct (pkg !! js "scripts") as [[]|]; try done; by intros ->.
Qed.

(** C5. For every manifest object (a key-value map whose [scripts] entry,
    if any, is a map, or a falsy value, which [pkg.scripts || {}] replaces
    by an empty map), [addPackageScripts] writes the manifest with
    [scripts.dev], [scripts.build] and [scripts.start] set to the three
    fixed commands; every other script entry and every other top-level key
    is as before, and nothing is logged but the step and its success. *)
Theorem addPackageScripts_sets_three_scripts (w : world) (text : list N)
    (pkg : gmap (list N) json) :
  files w !! resolved w (js "package.json") = Some text →
  JSON_parse text = Some (JObj pkg) →
  scripts_is_map pkg →
  let scripts := set_scripts (scripts_of pkg) in
  let written := <[js "scripts" := JObj scripts]> pkg in
  addPackageScripts w =
    (Normal (),
     World (<[resolved w (js "package.json") := JSON_stringify (JObj written)]>
              (files w))
       (dirs w) (cwd w)
       (trace w
        ++ [ EvConsole Out
               ([0xD83D; 0xDC49] ++ js " "
                ++ js "Adding scripts to package.json...");
             EvWrite (js "package.json") (JSON_stringify (JObj written));
             EvConsole Out
               ([0x2705] ++ js " " ++ js "Scripts added to package.json") ]))
  ∧ scripts !! js "dev" = Some (jstr "nodemon")
  ∧ scripts !! js "build" = Some (jstr "tsc")
  ∧ scripts !! js "start" = Some (jstr "node dist/main.js")
  ∧ (∀ k, k ∉ [js "dev"; js "build"; js "start"] →
          scripts !! k = scripts_of pkg !! k)
  ∧ (∀ k, k ≠ js "scripts" → written !! k = pkg !! k).
Proof.
  intros Hfile Hparse Hmap scripts written.
  split; [|split_and!].
  - unfold addPackageScripts, readJson, existsSync, readFileSync,
      JSON_parse_or_throw, writeJson, writeFileSync, is_directory, is_file,
      logStep, logSuccess.
    munfold. unfold resolved in *. cbn. rewrite Hfile. cbn.
    rewrite Hfile, Hparse. cbn.
    rewrite (assign_scripts_map pkg Hmap). cbn. rewrite Hfile. cbn.
    by rewrite <- !app_assoc.
  - apply set_scripts_fixed.
  - apply set_scripts_fixed.
  - apply set_scripts_fixed.
  - intros k Hk. by apply set_scripts_other.
  - intros k Hk. unfold written. by rewrite lookup_insert_ne.
Qed.

End Scripts.

(** ** The entry point *)

Section Entrypoint.
Context `{NodeRuntime}.

(** The two calls of [createSrcMain] succeed when [src] is not a regular
    file and [src/main.ts] is not a directory. *)
Lemma createSrcMain_run (port : strnum) (w : world) :
  is_file w (resolved w (js "src")) = false →
  is_directory w (resolved w (js "src/main.ts")) = false →
  resolved w (js "src/main.ts") ≠ resolved w (js "src") →
  createSrcMain port w =
    (Normal (),
     World (<[resolved w (js "src/main.ts") := main_ts port]> (files w))
       ({[resolved w (js "src")]} ∪ dirs w) (cwd w)
       (trace w
        ++ [ EvMkdir (js "src");
             EvWrite (js "src/main.ts") (main_ts port);
             EvConsole Out ([0x2705] ++ js " " ++ js "src/main.ts created") ])).
Proof.
  intros Hsrc Hmain Hne.
  unfold createSrcMain, mkdirSync, writeFileSync, logSuccess.
  munfold. rewrite Hsrc. unfold resolved in *. cbn.
  replace (is_directory _ _) with false; [cbn; by rewrite <- !app_assoc|].
  symmetry. revert Hmain. unfold is_directory, is_file. cbn.
  destruct (bool_decide (is_Some _)); [done|]. cbn.
  intros Hdir%bool_decide_eq_false. apply bool_decide_eq_false. set_solver.
Qed.

(** [createSrcMain] writes nothing when [src] is a regular file: the
    exception of [mkdirSync] leaves the function. *)
Lemma createSrcMain_src_is_file (port : strnum) (w : world) :
  is_file w (resolved w (js "src")) = true →
  createSrcMain port w = (Throw SystemError, w).
Proof.
  intros Hsrc. unfold createSrcMain, mkdirSync. munfold. by rewrite Hsrc.
Qed.

(** Whatever the world, [createSrcMain] either makes [src], writes
    [src/main.ts] and logs its line, or throws before the file is written. *)
Lemma createSrcMain_cases (port : strnum) (w : world) :
  (∃ w',
     createSrcMain port w = (Normal (), w')
     ∧ trace w' =
         trace w
         ++ [ EvMkdir (js "src");
              EvWrite (js "src/main.ts") (main_ts port);
              EvConsole Out
                ([0x2705] ++ js " " ++ js "src/main.ts created") ])
  ∨ (∃ w' t,
       createSrcMain port w = (Throw SystemError, w')
       ∧ trace w' = trace w ++ t
       ∧ (t = [] ∨ t = [EvMkdir (js "src")])).
Proof.
  unfold createSrcMain, mkdirSync, writeFileSync, logSuccess. munfold.
  destruct (is_file w _).
  - right. exists w, []. rewrite app_nil_r. by split_and!; [..|left].
  - destruct (is_directory _ _).
    + right. eexists _, _. by split_and!; [..|right].
    + left. eexists. split; [done|]. cbn. by rewrite <- !app_assoc.
Qed.

(** C9. For every port value, and wherever [src] is not a regular file
    and [src/main.ts] is not a directory (two different paths),
    [createSrcMain] creates [src] and writes the single file [src/main.ts]:
    the fixed text before the fallback port, the port as text, the fixed
    text after it.  The text before ends with the fallback-port expression,
    and for the answer [8080] the file is the template with [8080] at that
    place. *)
Theorem createSrcMain_writes_template (port : strnum) (w : world) :
  is_file w (resolved w (js "src")) = false →
  is_directory w (resolved w (js "src/main.ts")) = false →
  resolved w (js "src/main.ts") ≠ resolved w (js "src") →
  createSrcMain port w =
    (Normal (),
     World (<[resolved w (js "src/main.ts") :=
                main_ts_head ++ ToString port ++ main_ts_tail]> (files w))
       ({[resolved w (js "src")]} ∪ dirs w) (cwd w)
       (trace w
        ++ [ EvMkdir (js "src");
             EvWrite (js "src/main.ts")
               (main_ts_head ++ ToString port ++ main_ts_tail);
             EvConsole Out ([0x2705] ++ js " " ++ js "src/main.ts created") ]))
  ∧ js "const port = process.env.PORT || " `suffix_of` main_ts_head
  ∧ js ";" `prefix_of` main_ts_tail
  ∧ portNumber_of (js "8080") = Str (js "8080")
  ∧ main_ts (portNumber_of (js "8080")) =
      nl ++ js "import express from " ++ dq ++ js "express" ++ dq ++ js ";"
      ++ nl ++ js "import type { Request, Response } from " ++ dq
      ++ js "express" ++ dq ++ js ";" ++ nl ++ nl
      ++ js "const app = express();" ++ nl
      ++ js "const port = process.env.PORT || 8080;" ++ nl ++ nl
      ++ js "app.get(" ++ dq ++ js "/" ++ dq
      ++ js ", (req: Request, res: Response) => {" ++ nl
      ++ js "    res.send(" ++ dq ++ js "Hello, TypeScript + Express!" ++ dq
      ++ js ");" ++ nl ++ js "});" ++ nl ++ nl
      ++ js "app.listen(port, () => {" ++ nl
      ++ js "    console.log(" ++ backtick
      ++ js "Server running at http://localhost:${port}" ++ backtick
      ++ js ");" ++ nl ++ js "});" ++ nl.
Proof.
  intros Hsrc Hmain Hne. split_and!.
  - by apply createSrcMain_run.
  - exists (take (length main_ts_head
                  - length (js "const port = process.env.PORT || "))
             main_ts_head).
    vm_compute. reflexivity.
  - exists (drop 1 main_ts_tail). vm_compute. reflexivity.
  - vm_compute. reflexivity.
  - vm_compute. reflexivity.
Qed.

End Entrypoint.

(** ** The prompts *)

Section Prompts.
Context `{NodeRuntime}.

Lemma useDefault_of_basic_latin (answer : list N) :
  Forall (λ c, c < 128) (trim answer) →
  useDefault_of answer
  = negb (bool_decide (lower_ascii <$> trim answer = js "n")).
Proof.
  intros Hascii. unfold useDefault_of.
  by rewrite (toLowerCase_basic_latin _ Hascii).
Qed.

Lemma useDefault_of_false (answer : list N) :
  useDefault_of answer = false ↔ toLowerCase (trim answer) = js "n".
Proof.
  unfold useDefault_of. rewrite negb_false_iff. apply bool_decide_eq_true.
Qed.


End Prompts.

(** ** Comment stripping *)

(** The bound on the recursion of [replace_from] is never reached: any
    bound above the length of the input gives the same text. *)
Lemma replace_from_fuel (r : regex) (by_ : list N) (n m : nat) (s : list N) :
  (length s < n)%nat → (length s < m)%nat →
  replace_from n r by_ s = replace_from m r by_ s.
Proof.
  revert m s. induction n as [|n IH]; intros m s Hn Hm; [lia|].
  destruct m as [|m]; [lia|]. simpl.
  destruct (match_here r s) as [rest|].
  - destruct (length rest <? length s)%nat eqn:Hlt.
    + apply Nat.ltb_lt in Hlt. f_equal. apply IH; lia.
    + destruct s as [|c s]; [done|]. simpl in *. do 2 f_equal. apply IH; lia.
  - destruct s as [|c s]; [done|]. simpl in *. f_equal. apply IH; lia.
Qed.

(** A pattern that starts with a literal character changes nothing in a
    text without that character. *)
Lemma replace_from_absent (c0 : N) (r : regex) (by_ : list N) (n : nat)
    (s : list N) :
  Forall (λ c, c ≠ c0) s →
  replace_from n (Cat (Chr (Lit c0)) r) by_ s = s.
Proof.
  revert s. induction n as [|n IH]; intros s Hs; [done|].
  destruct s as [|c s]; [done|].
  apply Forall_cons in Hs as [Hc Hs]. simpl.
  unfold match_here. simpl.
  destruct (N.eqb_spec c c0) as [->|_]; [done|].
  by rewrite IH.
Qed.

(** On a text without slashes and commas [removeJsonComments] only
    trims. *)
Lemma removeJsonComments_plain (s : list N) :
  Forall (λ c, c ≠ 47) s → Forall (λ c, c ≠ 44) s →
  removeJsonComments s = trim s.
Proof.
  intros Hslash Hcomma. unfold removeJsonComments, replace_all.
  unfold re_line_comment, re_block_comment, re_comma_brace, re_comma_bracket.
  rewrite (replace_from_absent 47 _ _ _ s) by done.
  rewrite (replace_from_absent 47 _ _ _ s) by done.
  rewrite (replace_from_absent 44 _ _ _ s) by done.
  by rewrite (replace_from_absent 44 _ _ _ s).
Qed.

(** C8. [removeJsonComments] takes comment markers inside string values
    for comments: on a valid configuration whose [sourceRoot] is a URL it
    cuts the text in the middle of the string (what is left is not JSON),
    and it turns the value [src/**/*], which the tool itself writes, into
    [src*]. *)
Theorem removeJsonComments_alters_string_values :
  removeJsonComments
    (js "{" ++ dq ++ js "compilerOptions" ++ dq ++ js ": {" ++ dq
     ++ js "sourceRoot" ++ dq ++ js ": " ++ dq ++ js "https://example.com/src"
     ++ dq ++ js "}}")
  = js "{" ++ dq ++ js "compilerOptions" ++ dq ++ js ": {" ++ dq
    ++ js "sourceRoot" ++ dq ++ js ": " ++ dq ++ js "https:"
  ∧ removeJsonComments
      (js "{" ++ dq ++ js "include" ++ dq ++ js ": [" ++ dq ++ js "src/**/*"
       ++ dq ++ js "]}")
    = js "{" ++ dq ++ js "include" ++ dq ++ js ": [" ++ dq ++ js "src*" ++ dq
      ++ js "]}".
Proof. split; vm_compute; reflexivity. Qed.

(** ** The workflow *)

Create HintDb confined.

Section Workflow.
Context `{NodeRuntime}.

(** *** Steps that run no command *)

(** The trace grows by the events of the two parts of a sequence. *)
Ltac join_traces t1 t2 Ht1 Ht2 :=
  exists (t1 ++ t2); rewrite Ht2, Ht1, app_assoc; split; [done|];
  try by apply Forall_app.

Lemma confined_ret {A} E (a : A) : confined E (mret a).
Proof.
  intros w r w' [= <- <-]. split; [done|]. exists []. by rewrite app_nil_r.
Qed.

Lemma confined_bind {A B} E (m : M A) (f : A → M B) :
  confined E m → (∀ a, confined E (f a)) → confined E (m ≫= f).
Proof.
  intros Hm Hf w r w'. unfold mbind, M_bind.
  destruct (m w) as [[a|e|c] w1] eqn:Hrun;
    destruct (Hm _ _ _ Hrun) as (Hr & t1 & Ht1 & HE1).
  - intros Hrun2.
    destruct (Hf a _ _ _ Hrun2) as (Hr2 & t2 & Ht2 & HE2).
    split; [done|]. join_traces t1 t2 Ht1 Ht2.
  - intros [= <- <-]. split; [done|]. by exists t1.
  - intros [= <- <-]. split; [congruence|]. by exists t1.
Qed.

Lemma confined_try_catch {A} E (m : M A) (h : exn → M A) :
  confined E m → (∀ e, confined E (h e)) → confined E (try_catch m h).
Proof.
  intros Hm Hh w r w'. unfold try_catch.
  destruct (m w) as [[a|e|c] w1] eqn:Hrun;
    destruct (Hm _ _ _ Hrun) as (Hr & t1 & Ht1 & HE1).
  - intros [= <- <-]. split; [done|]. by exists t1.
  - intros Hrun2.
    destruct (Hh e _ _ _ Hrun2) as (Hr2 & t2 & Ht2 & HE2).
    split; [done|]. join_traces t1 t2 Ht1 Ht2.
  - intros [= <- <-]. split; [congruence|]. by exists t1.
Qed.

Lemma confined_mono {A} (E E' : event → Prop) (m : M A) :
  (∀ e, E e → E' e) → confined E m → confined E' m.
Proof.
  intros HE Hm w r w' Hrun. destruct (Hm _ _ _ Hrun) as (Hr & t & Ht & HEt).
  split; [done|]. exists t. split; [done|]. eapply Forall_impl; eauto.
Qed.

(** A step that leaves the world as it is. *)
Lemma confined_still {A} E (m : M A) :
  (∀ w, ∃ r, m w = (r, w) ∧ r ≠ Exit 1) → confined E m.
Proof.
  intros Hm w r w' Hrun. destruct (Hm w) as (r0 & Hr0 & Hne).
  rewrite Hr0 in Hrun. injection Hrun as <- <-.
  split; [done|]. exists []. by rewrite app_nil_r.
Qed.

(** A step that completes and adds the one event [e]. *)
Lemma confined_one {A} (E : event → Prop) (m : M A) (e : event) :
  (∀ w, ∃ a w', m w = (Normal a, w') ∧ trace w' = trace w ++ [e]) →
  E e → confined E m.
Proof.
  intros Hm He w r w' Hrun. destruct (Hm w) as (a & w1 & Hrun1 & Ht).
  rewrite Hrun1 in Hrun. injection Hrun as <- <-.
  split; [done|]. exists [e]. split; [done|]. by constructor.
Qed.

Lemma confined_emit (E : event → Prop) e : E e → confined E (emit e).
Proof. apply confined_one. intros w. by eexists _, _. Qed.

(** A step that completes and adds the one event [e], or throws and
    leaves the world as it is. *)
Lemma confined_attempt {A} (E : event → Prop) (m : M A) (e : event) :
  (∀ w, (∃ a w', m w = (Normal a, w') ∧ trace w' = trace w ++ [e])
        ∨ (∃ x, m w = (Throw x, w))) →
  E e → confined E m.
Proof.
  intros Hm He w r w' Hrun.
  destruct (Hm w) as [(a & w1 & Hrun1 & Ht)|(x & Hrun1)];
    rewrite Hrun1 in Hrun; injection Hrun as <- <-; (split; [done|]).
  - exists [e]. split; [done|]. by constructor.
  - exists []. by rewrite app_nil_r.
Qed.

Lemma confined_writeFileSync (E : event → Prop) p data :
  E (EvWrite p data) → confined E (writeFileSync p data).
Proof.
  apply confined_attempt. intros w. unfold writeFileSync.
  destruct (is_directory _ _); [right; by eexists|left; by eexists _, _].
Qed.

Lemma confined_mkdirSync (E : event → Prop) p :
  E (EvMkdir p) → confined E (mkdirSync p).
Proof.
  apply confined_attempt. intros w. unfold mkdirSync.
  destruct (is_file _ _); [right; by eexists|left; by eexists _, _].
Qed.

Lemma confined_chdir (E : event → Prop) p :
  E (EvChdir p) → confined E (chdir p).
Proof.
  apply confined_attempt. intros w. unfold chdir.
  destruct (is_directory _ _); [left; by eexists _, _|right; by eexists].
Qed.

Lemma confined_existsSync E p : confined E (existsSync p).
Proof. apply confined_still. intros w. by eexists. Qed.

Lemma confined_readFileSync E p : confined E (readFileSync p).
Proof.
  apply confined_still. intros w. unfold readFileSync.
  destruct (files w !! resolved w p); by eexists.
Qed.

Lemma confined_throw {A} E e : confined E (throw e : M A).
Proof. apply confined_still. intros w. by eexists. Qed.

Lemma confined_exit0 {A} E : confined E (process_exit 0%Z : M A).
Proof. apply confined_still. intros w. by eexists. Qed.

Lemma confined_parse E text : confined E (JSON_parse_or_throw text).
Proof.
  unfold JSON_parse_or_throw.
  destruct (JSON_parse text); [apply confined_ret|apply confined_throw].
Qed.

#[local] Hint Resolve confined_ret confined_existsSync confined_readFileSync
  confined_throw confined_exit0 confined_parse : confined.

(** Decomposes a step into its primitive calls. *)
Ltac confine :=
  repeat first
    [ apply confined_bind; [|intros ?]
    | apply confined_try_catch; [|intros ?]
    | progress (unfold logStep, logSuccess, logWarn, logError, console,
                  question, writeJson)
    | solve [eauto with confined]
    | match goal with
      | |- confined _ (if ?b then _ else _) => destruct b
      | |- confined _ (match ?x with _ => _ end) => destruct x
      end
    | (apply confined_emit; done)
    | (apply confined_writeFileSync; done)
    | (apply confined_mkdirSync; done)
    | (apply confined_chdir; done) ].

Lemma passive_setupTsConfig : confined passive setupTsConfig.
Proof. unfold setupTsConfig, merged_compilerOptions. confine. Qed.

Lemma passive_createSrcMain port : confined passive (createSrcMain port).
Proof. unfold createSrcMain. confine. Qed.

Lemma passive_createProjectDir name :
  confined passive (createProjectDir name).
Proof. unfold createProjectDir. confine. Qed.

Lemma passive_addPackageScripts : confined passive addPackageScripts.
Proof. unfold addPackageScripts, readJson. confine. Qed.

Lemma exec_free_configureNodemon : confined exec_free configureNodemon.
Proof. unfold configureNodemon. confine. Qed.

Lemma exec_free_on_finish name : confined exec_free (on_finish name).
Proof. unfold on_finish. confine. Qed.

Lemma passive_exec_free e : passive e → exec_free e.
Proof. by destruct e. Qed.

Lemma exec_free_on_add_package_scripts name :
  confined exec_free (on_add_package_scripts name).
Proof.
  unfold on_add_package_scripts, on_configure_nodemon.
  apply confined_bind; [|intros ?; apply confined_bind; [|intros ?]].
  - apply (confined_mono passive); [apply passive_exec_free|].
    apply passive_addPackageScripts.
  - apply exec_free_configureNodemon.
  - apply exec_free_on_finish.
Qed.

(** *** A failed command is fatal *)

Lemma clean_app t1 t2 : clean t1 → clean t2 → clean (t1 ++ t2).
Proof. intros H1 H2 c q s [Hin|Hin]%elem_of_app; eauto. Qed.

Lemma clean_exec_free t : Forall exec_free t → clean t.
Proof.
  intros Ht c q s Hin. rewrite Forall_forall in Ht. by destruct (Ht _ Hin).
Qed.

Lemma discipline_confined {A} (m : M A) :
  confined exec_free m → runs m fatal_discipline.
Proof.
  intros Hm w r w' Hrun. destruct (Hm _ _ _ Hrun) as (Hr & t & Ht & HE).
  exists t. split; [done|]. right. split; [done|]. by apply clean_exec_free.
Qed.

Lemma discipline_bind {A B} (m : M A) (f : A → M B) :
  runs m fatal_discipline → (∀ a, runs (f a) fatal_discipline) →
  runs (m ≫= f) fatal_discipline.
Proof.
  intros Hm Hf w r w'. unfold mbind, M_bind.
  destruct (m w) as [[a|e|c] w1] eqn:Hrun;
    destruct (Hm _ _ _ Hrun) as (t1 & Ht1 & Hcase).
  - destruct Hcase as [[? _]|[_ Hclean1]]; [done|].
    intros Hrun2. destruct (Hf a _ _ _ Hrun2) as (t2 & Ht2 & Hcase2).
    join_traces t1 t2 Ht1 Ht2.
    destruct Hcase2 as [[-> Hhalt]|[Hr Hclean2]].
    + left. split; [done|].
      destruct Hhalt
        as (t0 & c & q & s & wb & -> & Hs & Hclean0 & Hwb & Hcp & Hcwd).
      exists (t1 ++ t0), c, q, s, wb. rewrite app_assoc.
      split_and!; try done.
      * by apply clean_app.
      * by rewrite Hwb, Ht1, app_assoc.
    + right. split; [done|]. by apply clean_app.
  - intros [= <- <-]. exists t1. split; [done|].
    destruct Hcase as [[? _]|[_ ?]]; [done|]. by right.
  - intros [= <- <-]. exists t1. split; [done|].
    destruct Hcase as [[Hc ?]|[? ?]].
    + injection Hc as ->. by left.
    + right. split; [congruence|done].
Qed.

(** The two outcomes of [safeExec]. *)
Lemma safeExec_run command quiet w :
  ∃ f d status,
    child_process command quiet w = (f, d, status)
    ∧ ((status = 0%Z
        ∧ safeExec command quiet w
          = (Normal (),
             World f d (cwd w) (trace w ++ [EvExec command quiet status])))
       ∨ (status ≠ 0%Z
          ∧ safeExec command quiet w
            = (Exit 1,
               World f d (cwd w)
                 (trace w ++ [EvExec command quiet status;
                              EvConsole Err (fail_message command)])))).
Proof.
  unfold safeExec, execSync, logError, fail_message. munfold.
  destruct (child_process command quiet w) as [[f d] status].
  exists f, d, status. split; [done|].
  case_bool_decide.
  - by left.
  - right. split; [done|]. cbn. by rewrite <- app_assoc.
Qed.

Lemma discipline_safeExec command quiet :
  runs (safeExec command quiet) fatal_discipline.
Proof.
  intros w r w' Hrun.
  destruct (safeExec_run command quiet w)
    as (f & d & s & Hcp & [[Hs Heq]|[Hs Heq]]);
    rewrite Heq in Hrun; injection Hrun as <- <-.
  - exists [EvExec command quiet s]. split; [done|]. right. split; [done|].
    intros c q s' Hin. apply list_elem_of_singleton in Hin. congruence.
  - eexists. split; [done|]. left. split; [done|].
    exists [], command, quiet, s, w. cbn. rewrite app_nil_r.
    split_and!; try done.
    intros c q s' Hin. by apply elem_of_nil in Hin.
Qed.

Ltac discipline :=
  repeat first
    [ apply discipline_safeExec
    | apply discipline_bind; [|intros ?]
    | (apply discipline_confined;
       first
         [ apply exec_free_on_add_package_scripts
         | (apply (confined_mono passive); [apply passive_exec_free|];
            first [ apply passive_setupTsConfig
                  | apply passive_createSrcMain
                  | apply passive_createProjectDir ])
         | solve [confine] ]) ].

Lemma discipline_createProject name answer port :
  runs (createProject name answer port) fatal_discipline.
Proof.
  unfold createProject, on_initialize_project, on_use_default_npm_init,
    on_setup_tsconfig, on_initialize_git, on_install_dependencies,
    initNpm, setPackageModule, createGitAndIgnore.
  discipline.
Qed.

(** C7. In every run of the workflow, a command that exits with a
    non-zero status is followed by exactly one event, the error line that
    names the command; the process exits with status 1; the files and
    directories at exit are those that the failed command left (nothing is
    retried, cleaned up or rolled back). *)
Theorem failed_command_is_fatal (name answer port : list N) (w : world)
    (r : result unit) (w' : world) (t1 : list event) (command : list N)
    (quiet : bool) (status : Z) (t2 : list event) :
  createProject name answer port w = (r, w') →
  trace w' = trace w ++ t1 ++ EvExec command quiet status :: t2 →
  status ≠ 0%Z →
  r = Exit 1
  ∧ t2 = [EvConsole Err (fail_message command)]
  ∧ ∃ before,
      trace before = trace w ++ t1
      ∧ child_process command quiet before = (files w', dirs w', status)
      ∧ cwd w' = cwd before.
Proof.
  intros Hrun Htrace Hstatus.
  destruct (discipline_createProject _ _ _ _ _ _ Hrun) as (t & Ht & Hcase).
  rewrite Ht in Htrace. apply app_inv_head in Htrace. subst t.
  destruct Hcase as [[-> Hhalt]|[_ Hclean]].
  - destruct Hhalt
      as (t0 & c & q & s & wb & Heq & Hs & Hclean0 & Hwb & Hcp & Hcwd).
    apply app_eq_app in Heq as [l [[-> Heq]|[-> Heq]]].
    + destruct l as [|e1 [|e2 l]]; simplify_eq/=.
      * rewrite app_nil_r in *. split_and!; try done. by exists wb.
      * destruct l; simplify_eq/=.
    + destruct l as [|e l]; simplify_eq/=.
      * split_and!; try done. exists wb. by rewrite app_nil_r in Hwb.
      * destruct Hstatus. apply (Hclean0 command quiet status). set_solver.
  - destruct Hstatus. apply (Hclean command quiet status). set_solver.
Qed.

(** *** A failed install command *)

Lemma emits_confined {A} (E E' : event → Prop) (m : M A) :
  (∀ e, E e → E' e) → confined E m → emits E' m.
Proof.
  intros HE Hm w r w' Hrun. destruct (Hm _ _ _ Hrun) as (_ & t & Ht & HEt).
  exists t. split; [done|]. eapply Forall_impl; eauto.
Qed.

Lemma emits_bind {A B} E (m : M A) (f : A → M B) :
  emits E m → (∀ a, emits E (f a)) → emits E (m ≫= f).
Proof.
  intros Hm Hf w r w'. unfold mbind, M_bind.
  destruct (m w) as [[a|e|c] w1] eqn:Hrun;
    destruct (Hm _ _ _ Hrun) as (t1 & Ht1 & HE1).
  - intros Hrun2. destruct (Hf a _ _ _ Hrun2) as (t2 & Ht2 & HE2).
    join_traces t1 t2 Ht1 Ht2.
  - intros [= <- <-]. by exists t1.
  - intros [= <- <-]. by exists t1.
Qed.

Lemma emits_safeExec command quiet :
  ¬ is_install command → emits neutral (safeExec command quiet).
Proof.
  intros Hc w r w' Hrun.
  destruct (safeExec_run command quiet w)
    as (f & d & s & Hcp & [[Hs Heq]|[Hs Heq]]);
    rewrite Heq in Hrun; injection Hrun as <- <-; eexists; (split; [done|]);
    repeat constructor; done.
Qed.

Lemma split_after (E : event → Prop) (t0 t t1 t2 : list event) (e : event) :
  t0 ++ t = t1 ++ e :: t2 → Forall E t0 → ¬ E e →
  ∃ t1', t1 = t0 ++ t1' ∧ t = t1' ++ e :: t2.
Proof.
  intros Heq HE He. apply app_eq_app in Heq as [l [[-> Heq]|[-> Heq]]].
  - destruct l as [|e' l]; simplify_eq/=.
    + exists []. by rewrite !app_nil_r.
    + destruct He. rewrite Forall_forall in HE. apply HE. set_solver.
  - by exists l.
Qed.

Lemma neutral_not_nodemon t :
  Forall neutral t → ¬ writes (js "nodemon.json") t.
Proof.
  intros Ht [data Hin]. rewrite Forall_forall in Ht. by destruct (Ht _ Hin).
Qed.

Lemma not_writes_app path t1 t2 :
  ¬ writes path t1 → ¬ writes path t2 → ¬ writes path (t1 ++ t2).
Proof.
  intros H1 H2 [data [Hin|Hin]%elem_of_app]; [apply H1|apply H2];
    by exists data.
Qed.

Lemma install_rule_vacuous {A} Pre (w : world) (r : result A) (w' : world)
    (t : list event) :
  trace w' = trace w ++ t → Forall neutral t → install_rule Pre w r w'.
Proof.
  intros Ht HE. exists t. split; [done|]. intros t1 c q s t2 -> Hc Hs.
  rewrite Forall_forall in HE. destruct (HE (EvExec c q s)); [set_solver|done].
Qed.

Lemma install_rule_neutral {A} Pre (m : M A) :
  emits neutral m → runs m (install_rule Pre).
Proof.
  intros Hm w r w' Hrun. destruct (Hm _ _ _ Hrun) as (t & Ht & HE).
  by apply (install_rule_vacuous Pre w r w' t).
Qed.

Lemma install_rule_bind {A B} (Pre : list event → Prop) (m : M A)
    (f : A → M B) :
  emits neutral m → (∀ a, runs (f a) (install_rule Pre)) →
  (∀ t0 t1, Pre t1 → Pre (t0 ++ t1)) →
  runs (m ≫= f) (install_rule Pre).
Proof.
  intros Hm Hf Hpre w r w'. unfold mbind, M_bind.
  destruct (m w) as [[a|e|c] w1] eqn:Hrun;
    destruct (Hm _ _ _ Hrun) as (t0 & Ht0 & HE).
  - intros Hrun2. destruct (Hf a _ _ _ Hrun2) as (t & Ht & Hrule).
    exists (t0 ++ t). rewrite Ht, Ht0, app_assoc. split; [done|].
    intros t1 c q s t2 Heq Hc Hs.
    destruct (split_after neutral _ _ _ _ _ Heq HE) as (t1' & -> & Heq');
      [by intros ?|].
    destruct (Hrule _ _ _ _ _ Heq' Hc Hs) as (Hr & Hnodemon & Hp).
    split_and!; [done| |by apply Hpre].
    apply not_writes_app; [by apply neutral_not_nodemon|done].
  - intros [= <- <-]. by apply (install_rule_vacuous Pre w _ w1 t0).
  - intros [= <- <-]. by apply (install_rule_vacuous Pre w _ w1 t0).
Qed.

Lemma install_rule_createSrcMain {B} (port : strnum) (f : unit → M B) :
  (∀ a, runs (f a) (install_rule (λ _, True))) →
  runs (createSrcMain port ≫= f)
    (install_rule (writes (js "src/main.ts"))).
Proof.
  intros Hf w r w'. unfold mbind, M_bind.
  destruct (createSrcMain_cases port w)
    as [(w1 & -> & Ht1)|(w1 & t0 & -> & Ht1 & Hcase)].
  - intros Hrun2. destruct (Hf _ _ _ _ Hrun2) as (t & Ht & Hrule).
    eexists. rewrite Ht, Ht1, <- app_assoc. split; [done|].
    intros t1 c q s t2 Heq Hc Hs.
    eapply (split_after neutral) in Heq as (t1' & -> & Heq');
      [|by repeat constructor|by intros ?].
    destruct (Hrule _ _ _ _ _ Heq' Hc Hs) as (Hr & Hnodemon & _).
    split_and!; [done| |].
    + apply not_writes_app; [|done].
      apply neutral_not_nodemon. by repeat constructor.
    + exists (main_ts port). set_solver.
  - intros [= <- <-]. apply (install_rule_vacuous _ w _ w1 t0); [done|].
    destruct Hcase as [->| ->]; by repeat constructor.
Qed.

Lemma install_rule_on_install_dependencies name :
  runs (on_install_dependencies name) (install_rule (λ _, True)).
Proof.
  intros w r w'. unfold on_install_dependencies, logStep.
  unfold mbind at 1, M_bind at 1. unfold console at 1, emit at 1.
  set (w1 := record _ w).
  unfold mbind at 1, M_bind at 1.
  destruct (safeExec_run install_express false w1)
    as (f1 & d1 & s1 & Hcp1 & [[-> Heq1]|[Hs1 Heq1]]); rewrite Heq1.
  2:{ intros [= <- <-]. eexists. cbn. rewrite <- app_assoc. split; [done|].
      intros t1 c q s t2 Heq Hc Hs. split_and!; [done| |done].
      intros [data Hin]. set_solver. }
  set (w2 := World _ _ _ _).
  unfold mbind at 1, M_bind at 1.
  destruct (safeExec_run install_dev false w2)
    as (f2 & d2 & s2 & Hcp2 & [[-> Heq2]|[Hs2 Heq2]]); rewrite Heq2.
  2:{ intros [= <- <-]. eexists. cbn. rewrite <- !app_assoc. split; [done|].
      intros t1 c q s t2 Heq Hc Hs. split_and!; [done| |done].
      intros [data Hin]. set_solver. }
  set (w3 := World _ _ _ _).
  unfold mbind at 1, M_bind at 1, logSuccess, console at 1, emit at 1.
  intros Hrun.
  destruct (exec_free_on_add_package_scripts name _ _ _ Hrun)
    as (Hr & t & Ht & HE).
  eexists. rewrite Ht. cbn. rewrite <- !app_assoc. split; [done|].
  intros t1 c q s t2 Heq Hc Hs. destruct Hs.
  match type of Heq with
  | ?l = _ => assert (EvExec c q s ∈ l) as Hin by (rewrite Heq; set_solver)
  end.
  rewrite ?elem_of_app, ?elem_of_cons, ?elem_of_nil in Hin.
  destruct_or!; simplify_eq; try done.
  rewrite Forall_forall in HE. by destruct (HE _ Hin).
Qed.


Lemma passive_neutral e : passive e → neutral e.
Proof. by destruct e. Qed.

Lemma not_install command :
  bool_decide (command = install_express) || bool_decide (command = install_dev)
  = false →
  ¬ is_install command.
Proof.
  intros Hb [Hc|Hc]; apply orb_false_elim in Hb as [H1 H2];
    [apply bool_decide_eq_false in H1|apply bool_decide_eq_false in H2]; done.
Qed.

Lemma writes_app_r path t0 t1 : writes path t1 → writes path (t0 ++ t1).
Proof. intros [data Hin]. exists data. set_solver. Qed.

Ltac neutral_step :=
  repeat first
    [ apply emits_safeExec; apply not_install; vm_compute; reflexivity
    | apply (emits_confined passive); [apply passive_neutral|solve [confine]]
    | apply emits_bind; [|intros ?] ].

Lemma emits_initNpm useDefault : emits neutral (initNpm useDefault).
Proof. destruct useDefault; unfold initNpm; neutral_step. Qed.

Lemma emits_setPackageModule : emits neutral setPackageModule.
Proof. unfold setPackageModule; neutral_step. Qed.

Lemma emits_createGitAndIgnore : emits neutral createGitAndIgnore.
Proof. unfold createGitAndIgnore; neutral_step. Qed.

Lemma install_rule_createProject name answer port :
  runs (createProject name answer port)
    (install_rule (writes (js "src/main.ts"))).
Proof.
  unfold createProject, on_initialize_project.
  apply install_rule_bind; [neutral_step| |apply writes_app_r]. intros name'.
  apply install_rule_bind; [neutral_step| |apply writes_app_r]. intros _.
  unfold on_use_default_npm_init.
  apply install_rule_bind; [neutral_step| |apply writes_app_r]. intros answer'.
  apply install_rule_bind; [apply emits_initNpm| |apply writes_app_r]. intros _.
  apply install_rule_bind; [apply emits_setPackageModule| |apply writes_app_r].
  intros _. unfold on_setup_tsconfig.
  apply install_rule_bind; [neutral_step| |apply writes_app_r]. intros _.
  apply install_rule_bind; [neutral_step| |apply writes_app_r]. intros port'.
  apply install_rule_createSrcMain. intros _. unfold on_initialize_git.
  apply install_rule_bind; [apply emits_createGitAndIgnore| |done]. intros _.
  apply install_rule_on_install_dependencies.
Qed.

(** C6 (amended). In every run in which an install command exits with a
    non-zero status, the process exits with status 1 and [nodemon.json] is
    not written; [src/main.ts] has been written before the install command
    ran. *)
Theorem failed_install_halts_before_nodemon (name answer port : list N)
    (w : world) (r : result unit) (w' : world) (t1 : list event)
    (command : list N) (quiet : bool) (status : Z) (t2 : list event) :
  createProject name answer port w = (r, w') →
  trace w' = trace w ++ t1 ++ EvExec command quiet status :: t2 →
  is_install command → status ≠ 0%Z →
  r = Exit 1
  ∧ ¬ writes (js "nodemon.json") (t1 ++ EvExec command quiet status :: t2)
  ∧ writes (js "src/main.ts") t1.
Proof.
  intros Hrun Htrace Hc Hs.
  destruct (install_rule_createProject _ _ _ _ _ _ Hrun) as (t & Ht & Hrule).
  rewrite Ht in Htrace. apply app_inv_head in Htrace. subst t.
  by apply (Hrule t1 command quiet status t2).
Qed.

(** *** The [npm init] mode *)

Lemma npm_init_command_of (answer : list N) :
  npm_init_command (useDefault_of answer)
  = if decide (toLowerCase (trim answer) = js "n")
    then js "npm init" else js "npm init -y".
Proof.
  unfold npm_init_command, useDefault_of.
  case_bool_decide; [by rewrite decide_True|by rewrite decide_False].
Qed.

Lemma emits_command (E : event → Prop) command quiet :
  (∀ status, E (EvExec command quiet status)) →
  E (EvConsole Err (fail_message command)) →
  emits E (safeExec command quiet).
Proof.
  intros Hc He w r w' Hrun.
  destruct (safeExec_run command quiet w)
    as (f & d & s & Hcp & [[Hs Heq]|[Hs Heq]]);
    rewrite Heq in Hrun; injection Hrun as <- <-; eexists; (split; [done|]);
    repeat constructor; done.
Qed.

(** A question hands the line entered to what follows. *)
Lemma question_run {B} (prompt answer : list N) (f : list N → M B)
    (w : world) :
  (question prompt answer ≫= f) w
  = f answer (record (EvQuestion prompt answer) w).
Proof. reflexivity. Qed.

Lemma passive_not_npm_init e : passive e → not_npm_init e.
Proof. by destruct e. Qed.

Ltac other_command :=
  repeat first
    [ apply emits_command; [by intros ?; split|done]
    | (apply (emits_confined exec_free);
       [by intros []|apply exec_free_on_add_package_scripts])
    | apply (emits_confined passive);
        [apply passive_not_npm_init|solve [confine]]
    | apply emits_bind; [|intros ?] ].

Lemma emits_after_initNpm projectName port :
  emits not_npm_init (setPackageModule;; on_setup_tsconfig projectName port).
Proof.
  unfold setPackageModule, on_setup_tsconfig, on_initialize_git,
    createGitAndIgnore, on_install_dependencies, install_express,
    install_dev.
  other_command.
Qed.

(** C10. The [use-default-npm-init] handler asks its question and then
    runs one [npm init] command through [initNpm]: the interactive
    [npm init] exactly when the trimmed, lower-cased answer is [n], and
    [npm init -y] for any other answer; no later step of the run issues
    either command.  Accordingly the mode collected is Interactive exactly
    for such an answer: [no], [NO], other text and the blank answer select
    the Default mode, while [n] and [N] select Interactive. *)
Theorem interactive_only_when_n (projectName answer port : list N)
    (w : world) :
  let command :=
    if decide (toLowerCase (trim answer) = js "n")
    then js "npm init" else js "npm init -y" in
  let started :=
    EvConsole Out ([0xD83D; 0xDC49] ++ js " " ++ js "Initializing npm...") in
  (∃ status line,
     trace (initNpm (useDefault_of answer) w).2
     = trace w ++ [started; EvExec command false status; line])
  ∧ (∃ status rest,
       trace (on_use_default_npm_init projectName answer port w).2
       = trace w
         ++ [ EvQuestion (js "Use default npm init? (Y/n): ") answer;
              started;
              EvExec command false status ]
         ++ rest
       ∧ Forall not_npm_init rest)
  ∧ (initMode (collected projectName answer port) = Interactive
     ↔ toLowerCase (trim answer) = js "n")
  ∧ (toLowerCase (trim answer) ≠ js "n" →
     initMode (collected projectName answer port) = Default)
  ∧ useDefault_of (js "no") = true
  ∧ useDefault_of (js "NO") = true
  ∧ useDefault_of (js "nope, thanks") = true
  ∧ useDefault_of (js "") = true
  ∧ useDefault_of (js "n") = false
  ∧ useDefault_of (js " N ") = false.
Proof.
  intros command started.
  pose proof (useDefault_of_false answer) as Hfalse.
  split_and!.
  - unfold initNpm, logStep, logSuccess.
    unfold mbind at 1, M_bind at 1, console at 1, emit at 1.
    fold started. rewrite npm_init_command_of. fold command.
    destruct (safeExec_run command false (record started w))
      as (f & d & s & Hcp & [[Hs Heq]|[Hs Heq]]);
      unfold mbind at 1, M_bind at 1; rewrite Heq; exists s; eexists; cbn;
      rewrite <- !app_assoc; reflexivity.
  - unfold on_use_default_npm_init. rewrite question_run.
    set (w0 := record _ w).
    unfold mbind at 1, M_bind at 1, initNpm, logStep, logSuccess.
    unfold mbind at 1, M_bind at 1, console at 1, emit at 1.
    fold started. rewrite npm_init_command_of. fold command.
    destruct (safeExec_run command false (record started w0))
      as (f & d & s & Hcp & [[Hs Heq]|[Hs Heq]]);
      unfold mbind at 1, M_bind at 1; rewrite Heq.
    + unfold console at 1, emit at 1.
      match goal with
      | |- context [mbind ?k ?m ?w1] =>
          destruct (mbind k m w1) as [r w'] eqn:Hrun
      end.
      destruct (emits_after_initNpm projectName port _ _ _ Hrun)
        as (t & Ht & HE).
      exists s; eexists (_ :: t). split.
      * cbn. rewrite Ht. cbn. rewrite <- !app_assoc. reflexivity.
      * by constructor.
    + exists s, [EvConsole Err (fail_message command)]. split.
      * cbn. by rewrite <- !app_assoc.
      * by repeat constructor.
  - rewrite <- Hfalse. unfold collected. cbn.
    by destruct (useDefault_of answer).
  - intros Hother. unfold collected. cbn.
    destruct (useDefault_of answer); [done|].
    destruct Hother. by apply Hfalse.
  - rewrite useDefault_of_basic_latin; vm_compute; [done|by repeat constructor].
  - rewrite useDefault_of_basic_latin; vm_compute; [done|by repeat constructor].
  - rewrite useDefault_of_basic_latin; vm_compute; [done|by repeat constructor].
  - rewrite useDefault_of_basic_latin; vm_compute; [done|by repeat constructor].
  - rewrite useDefault_of_basic_latin; vm_compute; [done|by repeat constructor].
  - rewrite useDefault_of_basic_latin; vm_compute; [done|by repeat constructor].
Qed.

End Workflow.

(** ** What comment stripping leaves *)

Lemma occurs_suffix (p rest s : list N) :
  rest `suffix_of` s → occurs p rest → occurs p s.
Proof.
  intros [k ->] (a & b & ->). exists (k ++ a), b. by rewrite <- app_assoc.
Qed.

Lemma occurs_prefix (p pre s : list N) :
  pre `prefix_of` s → occurs p pre → occurs p s.
Proof.
  intros [k ->] (a & b & ->). exists a, (b ++ k). by rewrite <- !app_assoc.
Qed.

Lemma occurs_pair_cons (x y c : N) (s : list N) :
  occurs [x; y] (c :: s) ↔ (c = x ∧ head s = Some y) ∨ occurs [x; y] s.
Proof.
  split.
  - intros (a & b & Heq). destruct a as [|c' a]; simplify_eq/=.
    + by left.
    + right. by exists a, b.
  - intros [[-> Hhead]|(a & b & ->)].
    + destruct s as [|y' s]; simplify_eq/=. by exists [], s.
    + by exists (c :: a), b.
Qed.

Lemma occurs_nil_r (x y : N) : ¬ occurs [x; y] [].
Proof. intros (a & b & Heq). by destruct a. Qed.

Lemma trimStart_suffix (s : list N) : trimStart s `suffix_of` s.
Proof.
  induction s as [|c s IH]; simpl; [done|].
  destruct (is_space c); [by apply suffix_cons_r|done].
Qed.

Lemma trimEnd_prefix (s : list N) : trimEnd s `prefix_of` s.
Proof.
  unfold trimEnd. destruct (trimStart_suffix (reverse s)) as [k Hk].
  exists (reverse k). rewrite <- reverse_app, <- Hk. by rewrite reverse_involutive.
Qed.

Lemma occurs_trim (p s : list N) : occurs p (trim s) → occurs p s.
Proof.
  intros H. unfold trim in H.
  eapply occurs_suffix; [apply trimStart_suffix|].
  eapply occurs_prefix; [apply trimEnd_prefix|done].
Qed.

(** What a match leaves is a suffix of the input. *)
Lemma star_suffix greedy p (k : list N → option (list N)) :
  (∀ s rest, k s = Some rest → rest `suffix_of` s) →
  ∀ s rest, star greedy p k s = Some rest → rest `suffix_of` s.
Proof.
  intros Hk s. induction s as [|c s IH]; intros rest; simpl; [apply Hk|].
  destruct (in_class p c); [|apply Hk].
  destruct greedy; unfold orelse.
  - destruct (star true p k s) as [r1|] eqn:H1.
    + intros [= <-]. apply suffix_cons_r. by apply IH.
    + apply Hk.
  - destruct (k (c :: s)) as [r1|] eqn:H1.
    + intros [= <-]. by apply Hk.
    + intros H2. apply suffix_cons_r. by apply IH.
Qed.

Lemma rmatch_suffix (r : regex) (k : list N → option (list N)) :
  (∀ s rest, k s = Some rest → rest `suffix_of` s) →
  ∀ s rest, rmatch r k s = Some rest → rest `suffix_of` s.
Proof.
  revert k. induction r as [p| |r1 IH1 r2 IH2|greedy p]; intros k Hk s rest; simpl.
  - destruct s as [|c s]; [done|]. destruct (in_class p c); [|done].
    intros H. apply suffix_cons_r. by apply Hk.
  - destruct s as [|c s]; [apply Hk|].
    destruct (is_line_terminator c); [apply Hk|done].
  - apply IH1. intros s' rest'. by apply IH2.
  - by apply star_suffix.
Qed.

Lemma match_here_suffix (r : regex) (s rest : list N) :
  match_here r s = Some rest → rest `suffix_of` s.
Proof. apply rmatch_suffix. by intros s' rest' [= ->]. Qed.

Lemma replace_from_head (c0 : N) (r : regex) (by_ : list N) (n : nat)
    (s : list N) :
  slash_safe c0 by_ →
  head (replace_from n (Cat (Chr (Lit c0)) r) by_ s) = Some 47 →
  head s = Some 47.
Proof.
  intros Hsafe. destruct n as [|n]; [done|]. simpl.
  destruct s as [|c s]; [done|].
  unfold match_here. simpl. destruct (N.eqb_spec c c0) as [->|Hne]; [|done].
  destruct Hsafe as [[-> ->]|(b & -> & Hb)]; [done|].
  destruct (rmatch r Some s) as [rest|]; [|done].
  destruct (_ <? _)%nat; simpl; intros; simplify_eq.
Qed.

Lemma replace_from_keeps_apart (c0 : N) (r : regex) (by_ : list N) (n : nat)
    (s : list N) :
  slash_safe c0 by_ →
  ¬ occurs [47; 47] s →
  ¬ occurs [47; 47] (replace_from n (Cat (Chr (Lit c0)) r) by_ s).
Proof.
  intros Hsafe. revert s. induction n as [|n IH]; intros s Hs; [done|].
  simpl. destruct s as [|c s].
  { unfold match_here. simpl. apply occurs_nil_r. }
  assert (¬ occurs [47; 47] (c :: replace_from n (Cat (Chr (Lit c0)) r) by_ s))
    as Hkeep.
  { rewrite occurs_pair_cons. intros [[-> Hhead]|Hocc].
    - apply Hs. apply occurs_pair_cons. left. split; [done|].
      by apply (replace_from_head c0 r by_ n).
    - revert Hocc. apply IH. intros Hocc. apply Hs.
      apply occurs_pair_cons. by right. }
  destruct (match_here (Cat (Chr (Lit c0)) r) (c :: s)) as [rest|] eqn:Hm;
    [|done].
  pose proof (match_here_suffix _ _ _ Hm) as Hsuffix.
  assert (¬ occurs [47; 47] (replace_from n (Cat (Chr (Lit c0)) r) by_ rest))
    as Hrest.
  { apply IH. intros Hocc. apply Hs. by apply (occurs_suffix _ rest). }
  destruct Hsafe as [[-> ->]|(b & -> & Hb)];
    destruct (_ <? _)%nat; simpl; try done.
  - rewrite occurs_pair_cons. intros [[? _]|?]; done.
  - rewrite occurs_pair_cons. intros [[? _]|?]; done.
Qed.

Lemma rest_of_line_suffix (s : list N) : rest_of_line s `suffix_of` s.
Proof.
  induction s as [|c s IH]; simpl; [done|].
  destruct (is_line_terminator c); [done|by apply suffix_cons_r].
Qed.

Lemma star_dot_end (s : list N) :
  star true Dot (rmatch EndOfLine Some) s = Some (rest_of_line s).
Proof.
  set (k := rmatch EndOfLine Some).
  induction s as [|c s IH]; [done|].
  cbn [star in_class rest_of_line].
  destruct (is_line_terminator c) eqn:Hc; cbn [negb].
  - unfold k. cbn [rmatch]. by rewrite Hc.
  - by rewrite IH.
Qed.

Lemma match_line_comment (s : list N) :
  match_here re_line_comment s =
    match s with
    | c :: d :: s' =>
        if (c =? 47) && (d =? 47) then Some (rest_of_line s') else None
    | _ => None
    end.
Proof.
  unfold match_here, re_line_comment. cbn [rmatch in_class].
  destruct s as [|c [|d s]]; [done|..].
  - by destruct (c =? 47).
  - destruct (c =? 47); [|done]. destruct (d =? 47); [|done].
    apply star_dot_end.
Qed.

Lemma line_comments_removed (n : nat) (s : list N) :
  (length s < n)%nat →
  ¬ occurs [47; 47] (replace_from n re_line_comment [] s).
Proof.
  revert s. induction n as [|n IH]; intros s Hn; [lia|].
  cbn [replace_from]. rewrite match_line_comment.
  destruct s as [|c s]; [apply occurs_nil_r|].
  assert (¬ (c = 47 ∧ head s = Some 47) →
          ¬ occurs [47; 47] (c :: replace_from n re_line_comment [] s))
    as Hkeep.
  { intros Hpair. rewrite occurs_pair_cons. intros [[-> Hhead]|Hocc].
    - apply Hpair. split; [done|]. unfold re_line_comment in Hhead.
      by eapply (replace_from_head 47); [left|].
    - revert Hocc. apply IH. simpl in Hn. lia. }
  destruct s as [|d s].
  { apply Hkeep. by intros [_ ?]. }
  destruct (N.eqb_spec c 47) as [->|Hc]; cbn [andb].
  - destruct (N.eqb_spec d 47) as [->|Hd].
    + pose proof (suffix_length _ _ (rest_of_line_suffix s)) as Hlen.
      simpl in Hn.
      destruct (_ <? _)%nat eqn:Hlt.
      * apply IH. lia.
      * apply Nat.ltb_ge in Hlt. simpl in Hlt. lia.
    + apply Hkeep. intros [_ [= ?]]. done.
  - apply Hkeep. by intros [? _].
Qed.


(** X1. Whatever the input, the text that [removeJsonComments] returns has
    no two slashes in a row: every [//] is taken for the start of a
    comment and cut to the end of its line, and no later replacement brings
    two slashes together. *)
Theorem removeJsonComments_leaves_no_line_comment (s : list N) :
  ¬ occurs (js "//") (removeJsonComments s).
Proof.
  intros Hocc. apply occurs_trim in Hocc. revert Hocc.
  unfold replace_all.
  unfold re_comma_bracket, re_comma_brace, re_block_comment.
  apply (replace_from_keeps_apart 44); [right; by exists 93|].
  apply (replace_from_keeps_apart 44); [right; by exists 125|].
  apply (replace_from_keeps_apart 47); [by left|].
  apply line_comments_removed. lia.
Qed.


Lemma starts_with_spec (p s : list N) :
  starts_with p s = true ↔ p `prefix_of` s.
Proof.
  revert s. induction p as [|x p IH]; intros s; simpl.
  - split; [intros _; apply prefix_nil|done].
  - destruct s as [|y s].
    + split; [done|]. intros [k Hk]. done.
    + rewrite andb_true_iff, IH, N.eqb_eq. split.
      * intros [-> Hp]. by apply prefix_cons.
      * intros [k Hk]. simplify_eq/=. split; [done|]. by exists k.
Qed.

Lemma contains_spec (p s : list N) : contains p s = true ↔ occurs p s.
Proof.
  induction s as [|c s IH]; simpl.
  - rewrite orb_false_r, starts_with_spec. split.
    + intros [k ->]. by exists [], k.
    + intros (a & b & Heq). destruct a as [|? a]; [|done]. by exists b.
  - rewrite orb_true_iff, starts_with_spec, IH. split.
    + intros [[k ->]|(a & b & ->)]; [by exists [], k|by exists (c :: a), b].
    + intros (a & b & Heq). destruct a as [|c' a]; simplify_eq/=.
      * left. by exists b.
      * right. by exists a, b.
Qed.

Lemma contains_false (p s : list N) : contains p s = false ↔ ¬ occurs p s.
Proof. rewrite <- contains_spec. by destruct (contains p s). Qed.

Lemma has_trailing_comma_suffix (s' s : list N) :
  s' `suffix_of` s → has_trailing_comma s' = true →
  has_trailing_comma s = true.
Proof.
  intros [k ->] H. induction k as [|c k IH]; [done|]. simpl.
  by rewrite IH, orb_true_r.
Qed.

Lemma replace_from_no_match (r : regex) (by_ : list N) (n : nat)
    (s : list N) :
  (∀ s', s' `suffix_of` s → match_here r s' = None) →
  replace_from n r by_ s = s.
Proof.
  revert s. induction n as [|n IH]; intros s Hs; [done|]. simpl.
  rewrite (Hs s) by done. destruct s as [|c s]; [done|].
  rewrite IH; [done|]. intros s' Hs'. apply Hs. by apply suffix_cons_r.
Qed.

Lemma match_block_comment (s rest : list N) :
  match_here re_block_comment s = Some rest → js "/*" `prefix_of` s.
Proof.
  unfold match_here, re_block_comment. cbn [rmatch in_class].
  destruct s as [|c [|d s]]; [done|..].
  - by destruct (c =? 47).
  - destruct (N.eqb_spec c 47) as [->|]; [|done].
    destruct (N.eqb_spec d 42) as [->|]; [|done].
    intros _. by exists s.
Qed.

Lemma star_space_closes (c : N) (s rest : list N) :
  c = 125 ∨ c = 93 →
  star true Space (rmatch (Chr (Lit c)) Some) s = Some rest →
  closes_after_space s = true.
Proof.
  intros Hc. set (k := rmatch (Chr (Lit c)) Some).
  assert (∀ x s', k (x :: s') = Some rest → (x =? 125) || (x =? 93) = true)
    as Hk.
  { intros x s'. unfold k. cbn [rmatch in_class].
    destruct (N.eqb_spec x c) as [->|]; [|done].
    intros _. by destruct Hc as [->| ->]. }
  induction s as [|x s IH]; [done|]. cbn [star in_class closes_after_space].
  destruct (is_space x).
  - unfold orelse. destruct (star true Space k s) as [r1|] eqn:Hstar.
    + intros [= ->]. rewrite IH by done. by rewrite orb_true_r.
    + intros H. by rewrite (Hk _ _ H).
  - intros H. by rewrite (Hk _ _ H).
Qed.

Lemma match_trailing_comma (c : N) (s rest : list N) :
  c = 125 ∨ c = 93 →
  match_here (Cat (Chr (Lit 44)) (Cat (Star true Space) (Chr (Lit c)))) s
  = Some rest →
  has_trailing_comma s = true.
Proof.
  intros Hc. unfold match_here. cbn [rmatch in_class].
  destruct s as [|x s]; [done|]. destruct (N.eqb_spec x 44) as [->|]; [|done].
  intros H. simpl. by rewrite (star_space_closes c s rest Hc H).
Qed.


(** X2. On a text with no [//], no [/*] and no comma that is followed
    (after white space) by a closing brace or bracket, [removeJsonComments]
    only trims: such a text is returned with its inner content as it
    is. *)
Theorem removeJsonComments_keeps_plain_text (s : list N) :
  contains (js "//") s = false →
  contains (js "/*") s = false →
  has_trailing_comma s = false →
  removeJsonComments s = trim s.
Proof.
  intros Hline Hblock Hcomma. unfold removeJsonComments, replace_all.
  assert (∀ n, replace_from n re_line_comment [] s = s) as Hpass1.
  { intros n. apply replace_from_no_match. intros s' Hs'.
    rewrite match_line_comment. destruct s' as [|c [|d s']]; try done.
    destruct (N.eqb_spec c 47) as [->|]; [|done].
    destruct (N.eqb_spec d 47) as [->|]; [|done].
    apply contains_false in Hline. destruct Hline.
    apply (occurs_suffix _ (47 :: 47 :: s')); [done|]. by exists [], s'. }
  assert (∀ n, replace_from n re_block_comment [] s = s) as Hpass2.
  { intros n. apply replace_from_no_match. intros s' Hs'.
    destruct (match_here re_block_comment s') as [rest|] eqn:Hm; [|done].
    apply contains_false in Hblock. destruct Hblock.
    apply (occurs_suffix _ s'); [done|].
    destruct (match_block_comment _ _ Hm) as [k ->]. by exists [], k. }
  assert (∀ n c by_, c = 125 ∨ c = 93 →
            replace_from n
              (Cat (Chr (Lit 44)) (Cat (Star true Space) (Chr (Lit c)))) by_ s
            = s) as Hpass34.
  { intros n c by_ Hc. apply replace_from_no_match. intros s' Hs'.
    destruct (match_here _ s') as [rest|] eqn:Hm; [|done].
    rewrite (has_trailing_comma_suffix s' s Hs') in Hcomma; [done|].
    by apply (match_trailing_comma c s' rest). }
  rewrite Hpass1, Hpass2. unfold re_comma_brace, re_comma_bracket.
  rewrite (Hpass34 _ 125) by (by left). by rewrite (Hpass34 _ 93) by (by right).
Qed.


(** ** The steps on their own: edge cases *)

Section Steps.
Context `{NodeRuntime}.

Lemma existsSync_absent (path : list N) (w : world) :
  files w !! resolved w path = None → resolved w path ∉ dirs w →
  existsSync path w = (Normal false, w).
Proof.
  intros Hfile Hdir. unfold existsSync. rewrite Hfile.
  rewrite (bool_decide_eq_false_2 _ Hdir).
  by rewrite bool_decide_eq_false_2 by (by intros [? ?]).
Qed.

Lemma existsSync_file (path text : list N) (w : world) :
  files w !! resolved w path = Some text →
  existsSync path w = (Normal true, w).
Proof.
  intros Hfile. unfold existsSync. rewrite Hfile.
  by rewrite bool_decide_eq_true_2 by done.
Qed.

Lemma existsSync_dir (path : list N) (w : world) :
  files w !! resolved w path = None → resolved w path ∈ dirs w →
  existsSync path w = (Normal true, w).
Proof.
  intros Hfile Hdir. unfold existsSync. rewrite Hfile.
  rewrite (bool_decide_eq_true_2 _ Hdir). by rewrite orb_true_r.
Qed.

Lemma is_directory_spec (w : world) (path : list N) :
  is_directory w path = true ↔ files w !! path = None ∧ path ∈ dirs w.
Proof.
  unfold is_directory, is_file.
  rewrite andb_true_iff, negb_true_iff, bool_decide_eq_false,
    bool_decide_eq_true.
  by rewrite <- eq_None_not_Some.
Qed.

Lemma is_directory_file (w : world) (path text : list N) :
  files w !! path = Some text → is_directory w path = false.
Proof.
  intros Hfile. apply not_true_is_false. rewrite is_directory_spec.
  intros [? _]. congruence.
Qed.

Lemma is_directory_absent (w : world) (path : list N) :
  path ∉ dirs w → is_directory w path = false.
Proof.
  intros Hdir. apply not_true_is_false. rewrite is_directory_spec.
  by intros [_ ?].
Qed.

(** What [writeJson] does in a world that differs from [w] in its trace
    only. *)
Lemma writeJson_run (path : list N) (data : json) (w : world)
    (t : list event) :
  writeJson path data (World (files w) (dirs w) (cwd w) t)
  = if is_directory w (resolved w path)
    then (Throw SystemError, World (files w) (dirs w) (cwd w) t)
    else (Normal (),
          World (<[resolved w path := JSON_stringify data]> (files w))
            (dirs w) (cwd w) (t ++ [EvWrite path (JSON_stringify data)])).
Proof. reflexivity. Qed.

Lemma setupTsConfig_absent (w : world) :
  files w !! resolved w (js "tsconfig.json") = None →
  resolved w (js "tsconfig.json") ∉ dirs w →
  setupTsConfig w = tsconfig_written w false default_compilerOptions.
Proof.
  intros Hfile Hdir. unfold setupTsConfig.
  unfold mbind at 1, M_bind at 1. rewrite existsSync_absent by done.
  unfold mbind at 1 2, M_bind at 1 2, mret at 1, M_ret at 1.
  destruct w as [f d c t]. rewrite (writeJson_run _ _ (World f d c t) t).
  rewrite is_directory_absent by done.
  unfold logSuccess, tsconfig_written. munfold. cbn.
  by rewrite <- app_assoc.
Qed.

Lemma setupTsConfig_directory (w : world) :
  is_directory w (resolved w (js "tsconfig.json")) = true →
  setupTsConfig w = (Throw SystemError, record tsconfig_warning w).
Proof.
  intros Hd. pose proof Hd as [Hfile Hdir]%is_directory_spec.
  unfold setupTsConfig.
  unfold mbind at 1, M_bind at 1. rewrite existsSync_dir by done.
  unfold mbind at 1 2, M_bind at 1 2.
  unfold merged_compilerOptions, readFileSync, logWarn, try_catch.
  unfold mbind at 1, M_bind at 1. rewrite Hfile.
  unfold throw, console, emit, mret, M_ret.
  unfold mbind at 1, M_bind at 1. fold tsconfig_warning.
  unfold record at 1. rewrite (writeJson_run _ _ w). by rewrite Hd.
Qed.

(** Every outcome of [setupTsConfig] where [tsconfig.json] is not a
    directory. *)
Lemma setupTsConfig_cases (w : world) :
  is_directory w (resolved w (js "tsconfig.json")) = false →
  ∃ warned compilerOptions,
    setupTsConfig w = tsconfig_written w warned compilerOptions
    ∧ canonical compilerOptions.
Proof.
  intros Hd.
  destruct (files w !! resolved w (js "tsconfig.json")) as [content|] eqn:Hfile.
  - destruct (JSON_parse (removeJsonComments content)) as [parsed|] eqn:Hparse.
    + rewrite (setupTsConfig_parsed w content parsed Hfile Hparse).
      destruct (get_named parsed (js "compilerOptions")) as [previous|].
      * eexists false, _. split; [done|]. apply canonical_spread2.
      * eexists true, _. split; [done|]. apply canonical_default.
    + rewrite (setupTsConfig_unparsed w content Hfile Hparse).
      eexists true, _. split; [done|]. apply canonical_default.
  - destruct (decide (resolved w (js "tsconfig.json") ∈ dirs w)) as [Hdir|Hdir].
    + assert (is_directory w (resolved w (js "tsconfig.json")) = true)
        by by apply is_directory_spec.
      congruence.
    + rewrite (setupTsConfig_absent w Hfile Hdir).
      eexists false, _. split; [done|]. apply canonical_default.
Qed.

(** X3. In every world, [setupTsConfig] either throws, after its warning
    and without writing, because [tsconfig.json] is a directory, or it
    completes and leaves a [tsconfig.json] whose [compilerOptions] hold the
    seven canonical values; nothing else of the file system changes, and
    nothing is logged but the warning (when the old file is not used) and
    the line that reports success. *)
Theorem setupTsConfig_writes_canonical_or_throws (w : world) :
  if is_directory w (resolved w (js "tsconfig.json")) then
    setupTsConfig w = (Throw SystemError, record tsconfig_warning w)
  else
    ∃ (warned : bool) (compilerOptions : gmap (list N) json),
      canonical compilerOptions
      ∧ setupTsConfig w =
          (Normal (),
           World (<[resolved w (js "tsconfig.json") :=
                      JSON_stringify (tsconfig_document compilerOptions)]>
                    (files w))
             (dirs w) (cwd w)
             (trace w ++ (if warned then [tsconfig_warning] else [])
              ++ [ EvWrite (js "tsconfig.json")
                     (JSON_stringify (tsconfig_document compilerOptions));
                   tsconfig_ready ])).
Proof.
  destruct (is_directory w _) eqn:Hd; [by apply setupTsConfig_directory|].
  destruct (setupTsConfig_cases w Hd) as (warned & co & -> & Hco).
  by exists warned, co.
Qed.

(** X4. Where there is no [tsconfig.json], [setupTsConfig] writes the
    document with the seven canonical defaults, without a warning. *)
Theorem setupTsConfig_creates_defaults (w : world) :
  files w !! resolved w (js "tsconfig.json") = None →
  resolved w (js "tsconfig.json") ∉ dirs w →
  let data := JSON_stringify (tsconfig_document canonical_defaults) in
  setupTsConfig w =
    (Normal (),
     World (<[resolved w (js "tsconfig.json") := data]> (files w)) (dirs w)
       (cwd w)
       (trace w ++ [EvWrite (js "tsconfig.json") data; tsconfig_ready])).
Proof. intros Hfile Hdir data. by rewrite setupTsConfig_absent. Qed.




(** *** readJson *)

Lemma readJson_cases (filePath : list N) (w : world) :
  readJson filePath w =
    match files w !! resolved w filePath with
    | Some text =>
        match JSON_parse text with
        | Some v => (Normal v, w)
        | None => (Normal (JObj ∅), record (parse_warning filePath) w)
        end
    | None =>
        if decide (resolved w filePath ∈ dirs w)
        then (Normal (JObj ∅), record (parse_warning filePath) w)
        else (Normal (JObj ∅), w)
    end.
Proof.
  unfold readJson. unfold mbind at 1, M_bind at 1.
  destruct (files w !! resolved w filePath) as [text|] eqn:Hfile.
  - rewrite (existsSync_file _ text) by done. cbn [negb].
    unfold readFileSync, JSON_parse_or_throw, logWarn, parse_warning.
    munfold. rewrite Hfile. by destruct (JSON_parse text).
  - destruct (decide _) as [Hdir|Hdir].
    + rewrite existsSync_dir by done. cbn [negb].
      unfold readFileSync, logWarn, parse_warning. munfold. by rewrite Hfile.
    + by rewrite existsSync_absent.
Qed.

(** X6. [readJson] never fails and never changes the file system: it
    gives the value of a file that parses, and the empty object for a file
    that does not exist (silently), for a file that does not parse and for
    a directory (after the warning that names the path). *)
Theorem readJson_never_fails (filePath : list N) (w : world) :
  ∃ v t,
    readJson filePath w
    = (Normal v, World (files w) (dirs w) (cwd w) (trace w ++ t))
    ∧ match files w !! resolved w filePath with
      | Some text =>
          match JSON_parse text with
          | Some v' => v = v' ∧ t = []
          | None => v = JObj ∅ ∧ t = [parse_warning filePath]
          end
      | None =>
          v = JObj ∅
          ∧ t = if decide (resolved w filePath ∈ dirs w)
                then [parse_warning filePath] else []
      end.
Proof.
  rewrite readJson_cases.
  destruct (files w !! resolved w filePath) as [text|].
  - destruct (JSON_parse text) as [v|].
    + exists v, []. rewrite app_nil_r. by destruct w.
    + by exists (JObj ∅), [parse_warning filePath].
  - destruct (decide _).
    + by exists (JObj ∅), [parse_warning filePath].
    + exists (JObj ∅), []. rewrite app_nil_r. by destruct w.
Qed.

(** *** addPackageScripts *)

(** What [addPackageScripts] does once [readJson] has given [pkg], after
    the events [t]. *)
Lemma addPackageScripts_after_read (w : world) (pkg : json)
    (t : list event) :
  readJson (js "package.json") (record scripts_step w)
  = (Normal pkg,
     World (files w) (dirs w) (cwd w) (trace w ++ [scripts_step] ++ t)) →
  addPackageScripts w =
    match assign_scripts pkg with
    | Some data =>
        if is_directory w (resolved w (js "package.json")) then
          (Throw SystemError,
           World (files w) (dirs w) (cwd w) (trace w ++ [scripts_step] ++ t))
        else
          (Normal (),
           World (<[resolved w (js "package.json") := JSON_stringify data]>
                    (files w))
             (dirs w) (cwd w)
             (trace w ++ [scripts_step] ++ t
              ++ [EvWrite (js "package.json") (JSON_stringify data);
                  scripts_done]))
    | None =>
        (Throw TypeError,
         World (files w) (dirs w) (cwd w) (trace w ++ [scripts_step] ++ t))
    end.
Proof.
  intros Hread. unfold addPackageScripts, logStep.
  unfold mbind at 1, M_bind at 1, console at 1, emit at 1.
  fold scripts_step.
  unfold mbind at 1, M_bind at 1. rewrite Hread.
  destruct (assign_scripts pkg) as [data|]; [|done].
  unfold mbind at 1, M_bind at 1. rewrite (writeJson_run _ _ w).
  destruct (is_directory w _); [done|].
  unfold logSuccess, scripts_done. munfold. cbn. by rewrite <- !app_assoc.
Qed.

Lemma addPackageScripts_parsed (w : world) (text : list N) (pkg : json) :
  files w !! resolved w (js "package.json") = Some text →
  JSON_parse text = Some pkg →
  addPackageScripts w =
    match assign_scripts pkg with
    | Some data =>
        (Normal (),
         World (<[resolved w (js "package.json") := JSON_stringify data]>
                  (files w))
           (dirs w) (cwd w)
           (trace w
            ++ [ scripts_step;
                 EvWrite (js "package.json") (JSON_stringify data);
                 scripts_done ]))
    | None =>
        (Throw TypeError,
         World (files w) (dirs w) (cwd w) (trace w ++ [scripts_step]))
    end.
Proof.
  intros Hfile Hparse.
  rewrite (addPackageScripts_after_read w pkg []).
  - rewrite (is_directory_file w _ text Hfile).
    by destruct (assign_scripts pkg).
  - rewrite readJson_cases. unfold resolved, record in *. cbn.
    rewrite Hfile, Hparse. by rewrite ?app_nil_r.
Qed.

Lemma assign_scripts_empty :
  assign_scripts (JObj ∅)
  = Some (JObj (list_to_map [ (js "scripts", JObj fixed_scripts) ])).
Proof. vm_compute. reflexivity. Qed.

(** X7. Where there is no [package.json], [addPackageScripts] creates one
    that holds the three scripts and nothing else, without a warning. *)
Theorem addPackageScripts_creates_manifest (w : world) :
  files w !! resolved w (js "package.json") = None →
  resolved w (js "package.json") ∉ dirs w →
  let data :=
    JSON_stringify
      (JObj (list_to_map [ (js "scripts", JObj fixed_scripts) ])) in
  addPackageScripts w =
    (Normal (),
     World (<[resolved w (js "package.json") := data]> (files w))
       (dirs w) (cwd w)
       (trace w
        ++ [scripts_step; EvWrite (js "package.json") data; scripts_done])).
Proof.
  intros Hfile Hdir data.
  rewrite (addPackageScripts_after_read w (JObj ∅) []).
  - rewrite assign_scripts_empty. by rewrite is_directory_absent.
  - rewrite readJson_cases. unfold resolved, record in *. cbn.
    rewrite Hfile, decide_False by done. by rewrite ?app_nil_r.
Qed.

(** X8. A [package.json] that does not parse is replaced: after the
    warning of [readJson], [addPackageScripts] writes a manifest that holds
    the three scripts and nothing of the old text. *)
Theorem addPackageScripts_replaces_unparsable_manifest (w : world)
    (text : list N) :
  files w !! resolved w (js "package.json") = Some text →
  JSON_parse text = None →
  let data :=
    JSON_stringify
      (JObj (list_to_map [ (js "scripts", JObj fixed_scripts) ])) in
  addPackageScripts w =
    (Normal (),
     World (<[resolved w (js "package.json") := data]> (files w))
       (dirs w) (cwd w)
       (trace w
        ++ [ scripts_step;
             parse_warning (js "package.json");
             EvWrite (js "package.json") data;
             scripts_done ])).
Proof.
  intros Hfile Hparse data.
  rewrite (addPackageScripts_after_read w (JObj ∅)
             [parse_warning (js "package.json")]).
  - rewrite assign_scripts_empty. by rewrite (is_directory_file w _ text).
  - rewrite readJson_cases. unfold resolved, record in *. cbn.
    rewrite Hfile, Hparse. by rewrite <- app_assoc.
Qed.

(** X9. Where [scripts] of the manifest is a truthy value that is not an
    object ([true], a number, a string), [addPackageScripts] throws a
    [TypeError] after its first line: nothing is written and the success
    line is not logged. *)
Theorem addPackageScripts_throws_on_scalar_scripts (w : world)
    (text : list N) (pkg : gmap (list N) json) (v : json) :
  files w !! resolved w (js "package.json") = Some text →
  JSON_parse text = Some (JObj pkg) →
  pkg !! js "scripts" = Some v →
  truthy_scalar v →
  addPackageScripts w
  = (Throw TypeError,
     World (files w) (dirs w) (cwd w) (trace w ++ [scripts_step])).
Proof.
  intros Hfile Hparse Hscripts [Htruthy Hscalar].
  rewrite (addPackageScripts_parsed w text _ Hfile Hparse).
  unfold assign_scripts, scripts_or_empty. rewrite Hscripts, Htruthy.
  by destruct v.
Qed.

(** X10. Where [scripts] of the manifest is an array, the three scripts
    are not added: they are stored as named properties of the array, which
    [JSON.stringify] leaves out, so the manifest is written back as it was
    while the success line is logged. *)
Theorem addPackageScripts_ignores_array_scripts (w : world)
    (text : list N) (pkg : gmap (list N) json) (l : list json) :
  files w !! resolved w (js "package.json") = Some text →
  JSON_parse text = Some (JObj pkg) →
  pkg !! js "scripts" = Some (JArr l) →
  addPackageScripts w =
    (Normal (),
     World (<[resolved w (js "package.json") := JSON_stringify (JObj pkg)]>
              (files w))
       (dirs w) (cwd w)
       (trace w
        ++ [ scripts_step;
             EvWrite (js "package.json") (JSON_stringify (JObj pkg));
             scripts_done ])).
Proof.
  intros Hfile Hparse Hscripts.
  rewrite (addPackageScripts_parsed w text _ Hfile Hparse).
  unfold assign_scripts, scripts_or_empty. rewrite Hscripts. cbn.
  by rewrite (insert_id pkg _ _ Hscripts).
Qed.

Lemma set_scripts_fixed_point (scripts : gmap (list N) json) :
  has_fixed_scripts scripts → set_scripts scripts = scripts.
Proof.
  intros (Hdev & Hbuild & Hstart). unfold set_scripts.
  by rewrite (insert_id _ _ _ Hdev), (insert_id _ _ _ Hbuild),
    (insert_id _ _ _ Hstart).
Qed.

(** X11. The injection is idempotent: a manifest whose [scripts] already
    hold the three scripts is written back with the same value. *)
Theorem addPackageScripts_keeps_injected_manifest (w : world)
    (text : list N) (pkg scripts : gmap (list N) json) :
  files w !! resolved w (js "package.json") = Some text →
  JSON_parse text = Some (JObj pkg) →
  pkg !! js "scripts" = Some (JObj scripts) →
  has_fixed_scripts scripts →
  addPackageScripts w =
    (Normal (),
     World (<[resolved w (js "package.json") := JSON_stringify (JObj pkg)]>
              (files w))
       (dirs w) (cwd w)
       (trace w
        ++ [ scripts_step;
             EvWrite (js "package.json") (JSON_stringify (JObj pkg));
             scripts_done ])).
Proof.
  intros Hfile Hparse Hscripts Hfixed.
  rewrite (addPackageScripts_parsed w text _ Hfile Hparse).
  unfold assign_scripts, scripts_or_empty. rewrite Hscripts. cbn.
  rewrite (set_scripts_fixed_point _ Hfixed).
  by rewrite (insert_id pkg _ _ Hscripts).
Qed.

End Steps.

(** ** The workflow as a whole *)




Lemma gitignore_text_eq : trim gitignoreContent = gitignore_text.
Proof. vm_compute. reflexivity. Qed.

Lemma default_port_text : js (pretty 3000%Z) = js "3000".
Proof. vm_compute. reflexivity. Qed.

Lemma outline_app t1 t2 : outline (t1 ++ t2) = outline t1 ++ outline t2.
Proof. apply omap_app. Qed.

Lemma clean_nil : clean [].
Proof. intros c q s Hin. by apply elem_of_nil in Hin. Qed.

Lemma clean_cons e t : exec_free e → clean t → clean (e :: t).
Proof.
  intros He Ht c q s [<-|Hin]%elem_of_cons; [done|]. by apply (Ht c q s).
Qed.

Lemma clean_ok command quiet t :
  clean t → clean (EvExec command quiet 0 :: t).
Proof.
  intros Ht c q s [Heq|Hin]%elem_of_cons; [congruence|]. by apply (Ht c q s).
Qed.

Lemma outline_elem_of (e : event) (s : step) (t : list event) :
  e ∈ t → step_of e = Some s → s ∈ outline t.
Proof. intros Hin Hs. apply list_elem_of_omap. by exists e. Qed.

Section Whole.
Context `{NodeRuntime}.


(** *** createGitAndIgnore *)

(** X13. [createGitAndIgnore] runs [git init] quietly.  When the command
    fails the process exits with status 1 and [.gitignore] is not touched;
    when it succeeds (and [.gitignore] is not a directory) [.gitignore] is
    replaced, whatever it held and whatever the command left there, by the
    fixed text. *)
Theorem createGitAndIgnore_outcomes (w : world) :
  let started :=
    EvConsole Out
      ([0xD83D; 0xDC49] ++ js " " ++ js "Initializing Git...") in
  ∃ f d status,
    child_process (js "git init") true (record started w) = (f, d, status)
    ∧ (status ≠ 0%Z →
       createGitAndIgnore w
       = (Exit 1,
          World f d (cwd w)
            (trace w
             ++ [ started;
                  EvExec (js "git init") true status;
                  EvConsole Err (fail_message (js "git init")) ])))
    ∧ (status = 0%Z →
       is_directory (World f d (cwd w) []) (resolved w (js ".gitignore"))
       = false →
       createGitAndIgnore w
       = (Normal (),
          World (<[resolved w (js ".gitignore") := gitignore_text]> f) d
            (cwd w)
            (trace w
             ++ [ started;
                  EvExec (js "git init") true 0;
                  EvConsole Out
                    ([0xD83D; 0xDC49] ++ js " "
                     ++ js "Creating .gitignore...");
                  EvWrite (js ".gitignore") gitignore_text;
                  EvConsole Out
                    ([0x2705] ++ js " "
                     ++ js "Git initialized and .gitignore created") ]))).
Proof.
  intros started.
  assert (createGitAndIgnore w
          = (safeExec (js "git init") true;;
             logStep (js "Creating .gitignore...");;
             writeFileSync (js ".gitignore") (trim gitignoreContent);;
             logSuccess (js "Git initialized and .gitignore created"))
              (record started w)) as -> by reflexivity.
  rewrite gitignore_text_eq.
  destruct (safeExec_run (js "git init") true (record started w))
    as (f & d & s & Hcp & Hcase).
  exists f, d, s. split; [done|]. split.
  - intros Hs. destruct Hcase as [[? _]|[_ Heq]]; [done|].
    unfold mbind at 1, M_bind at 1. rewrite Heq. cbn.
    by rewrite <- !app_assoc.
  - intros -> Hdir. destruct Hcase as [[_ Heq]|[? _]]; [|done].
    unfold mbind at 1, M_bind at 1. rewrite Heq.
    unfold logStep, logSuccess, writeFileSync. munfold. cbn.
    match goal with
    | |- context [is_directory ?w1 ?p] =>
        change (is_directory w1 p)
          with (is_directory (World f d (cwd w) [])
                  (resolved w (js ".gitignore")))
    end.
    rewrite Hdir. unfold resolved. cbn. by rewrite <- !app_assoc.
Qed.

(** *** The order of the actions *)

Lemma follows_bind {A B} l1 th1 l2 th2 final (m : M A) (f : A → M B) :
  runs m (follows l1 th1 false) →
  (∀ a, runs (f a) (follows l2 th2 final)) →
  runs (m ≫= f)
    (follows (l1 ++ l2) (th1 ++ (prod_map id (l1 ++.) <$> th2)) final).
Proof.
  intros Hm Hf w r w'. unfold mbind, M_bind.
  destruct (m w) as [[a|e|c] w1] eqn:Hrun;
    destruct (Hm _ _ _ Hrun) as (t1 & Ht1 & Hcase).
  - destruct Hcase as (_ & Hl1 & Hclean1).
    intros Hrun2. destruct (Hf a _ _ _ Hrun2) as (t2 & Ht2 & Hcase2).
    exists (t1 ++ t2). rewrite Ht2, Ht1, app_assoc. split; [done|].
    rewrite outline_app, Hl1.
    destruct r as [b|e|c].
    + destruct Hcase2 as (? & -> & ?). split_and!; [done..|by apply clean_app].
    + destruct Hcase2 as (Hin & ?). split; [|by apply clean_app].
      apply elem_of_app. right. apply list_elem_of_fmap.
      by exists (e, outline t2).
    + destruct Hcase2 as [(? & ? & -> & ?)|(? & Hpre & Hlast)].
      * left. split_and!; [done..|by apply clean_app].
      * right. split_and!; [done|by apply prefix_app|].
        destruct Hlast as (t0 & c' & q & s & -> & Hs & Hclean0).
        exists (t1 ++ t0), c', q, s. rewrite app_assoc.
        split_and!; [done..|by apply clean_app].
  - intros [= <- <-]. exists t1. split; [done|].
    destruct Hcase as (Hin & ?). split; [|done].
    apply elem_of_app. by left.
  - intros [= <- <-]. exists t1. split; [done|].
    destruct Hcase as [(? & ? & _)|(? & Hpre & Hlast)]; [done|].
    right. split_and!; [done| |done]. by apply prefix_app_r.
Qed.

(** A step that always completes. *)
Lemma follows_always {A} l (m : M A) :
  (∀ w, ∃ a w' t, m w = (Normal a, w') ∧ trace w' = trace w ++ t
                  ∧ outline t = l ∧ clean t) →
  runs m (follows l [] false).
Proof.
  intros Hm w r w' Hrun. destruct (Hm w) as (a & w1 & t & Heq & Ht & Hl & Hc).
  rewrite Heq in Hrun. injection Hrun as <- <-. by exists t.
Qed.

(** A step that does the one action [s], or throws a [SystemError] and
    leaves the world as it is. *)
Lemma follows_attempt {A} (s : step) (m : M A) :
  (∀ w, (∃ a w' e, m w = (Normal a, w') ∧ trace w' = trace w ++ [e]
                   ∧ step_of e = Some s ∧ exec_free e)
        ∨ m w = (Throw SystemError, w)) →
  runs m (follows [s] [(SystemError, [])] false).
Proof.
  intros Hm w r w' Hrun.
  destruct (Hm w) as [(a & w1 & e & Heq & Ht & Hs & He)|Heq];
    rewrite Heq in Hrun; injection Hrun as <- <-.
  - exists [e]. split; [done|]. split_and!; [done| |].
    + unfold outline. cbn. by rewrite Hs.
    + by apply clean_cons, clean_nil.
  - exists []. rewrite app_nil_r. split; [done|].
    split; [set_solver|apply clean_nil].
Qed.

Lemma follows_console l text : runs (console l text) (follows [] [] false).
Proof.
  apply follows_always. intros w. eexists _, _, [_].
  split_and!; [done..|]. by apply clean_cons, clean_nil.
Qed.

Lemma follows_writeFileSync path data :
  runs (writeFileSync path data)
    (follows [Wrote path] [(SystemError, [])] false).
Proof.
  apply follows_attempt. intros w. unfold writeFileSync.
  destruct (is_directory _ _); [by right|left]. by eexists _, _, _.
Qed.

Lemma follows_mkdirSync path :
  runs (mkdirSync path) (follows [Made path] [(SystemError, [])] false).
Proof.
  apply follows_attempt. intros w. unfold mkdirSync.
  destruct (is_file _ _); [by right|left]. by eexists _, _, _.
Qed.

Lemma follows_chdir path :
  runs (chdir path) (follows [Entered path] [(SystemError, [])] false).
Proof.
  apply follows_attempt. intros w. unfold chdir.
  destruct (is_directory _ _); [left|by right]. by eexists _, _, _.
Qed.

Lemma follows_exit0 {A} : runs (process_exit 0%Z : M A) (follows [] [] true).
Proof.
  intros w r w' [= <- <-]. exists []. rewrite app_nil_r. split; [done|].
  left. split_and!; [done..|]. apply clean_nil.
Qed.

Lemma follows_question {B} prompt answer l th final (f : list N → M B) :
  runs (f answer) (follows l th final) →
  runs (question prompt answer ≫= f)
    (follows ([Asked prompt] ++ l)
       (prod_map id ([Asked prompt] ++.) <$> th) final).
Proof.
  intros Hf w r w'. rewrite question_run. intros Hrun.
  destruct (Hf _ _ _ Hrun) as (t & Ht & Hcase).
  exists (EvQuestion prompt answer :: t). cbn in Ht.
  rewrite Ht, <- app_assoc. split; [done|].
  change (outline (EvQuestion prompt answer :: t))
    with ([Asked prompt] ++ outline t).
  destruct r as [b|e|c].
  - destruct Hcase as (? & -> & ?). split_and!; [done..|by apply clean_cons].
  - destruct Hcase as (Hin & ?). split; [|by apply clean_cons].
    apply list_elem_of_fmap. by exists (e, outline t).
  - destruct Hcase as [(? & ? & -> & ?)|(? & Hpre & Hlast)].
    + left. split_and!; [done..|by apply clean_cons].
    + right. split_and!; [done|by apply prefix_app|].
      destruct Hlast as (t0 & c' & q & s & -> & Hs & Hclean0).
      exists (EvQuestion prompt answer :: t0), c', q, s.
      split_and!; [done..|by apply clean_cons].
Qed.

Lemma follows_safeExec command quiet :
  runs (safeExec command quiet) (follows [Ran command quiet] [] false).
Proof.
  intros w r w' Hrun.
  destruct (safeExec_run command quiet w)
    as (f & d & s & Hcp & [[-> Heq]|[Hs Heq]]);
    rewrite Heq in Hrun; injection Hrun as <- <-; eexists; (split; [done|]).
  - split_and!; [done..|]. apply clean_ok, clean_nil.
  - right. split_and!; [done..|]. exists [], command, quiet, s.
    split_and!; [done..|]. apply clean_nil.
Qed.

Lemma follows_setupTsConfig :
  runs setupTsConfig
    (follows [Wrote (js "tsconfig.json")] [(SystemError, [])] false).
Proof.
  intros w r w' Hrun.
  destruct (is_directory w (resolved w (js "tsconfig.json"))) eqn:Hd.
  - rewrite (setupTsConfig_directory w Hd) in Hrun.
    injection Hrun as <- <-. exists [tsconfig_warning]. split; [done|].
    split; [set_solver|]. by apply clean_cons, clean_nil.
  - destruct (setupTsConfig_cases w Hd) as (warned & co & Heq & _).
    rewrite Heq in Hrun. unfold tsconfig_written in Hrun.
    injection Hrun as <- <-. eexists. split; [done|].
    split_and!; [done|by destruct warned|].
    destruct warned; repeat apply clean_cons; try done; apply clean_nil.
Qed.

(** What [readJson] adds to the trace. *)
Lemma readJson_trace (filePath : list N) (w : world) :
  ∃ v t,
    readJson filePath w
    = (Normal v, World (files w) (dirs w) (cwd w) (trace w ++ t))
    ∧ (t = [] ∨ t = [parse_warning filePath]).
Proof.
  rewrite readJson_cases.
  destruct (files w !! resolved w filePath) as [text|];
    [destruct (JSON_parse text) as [v|]|destruct (decide _)].
  - exists v, []. rewrite app_nil_r. split; [by destruct w|by left].
  - exists (JObj ∅), [parse_warning filePath]. split; [done|by right].
  - exists (JObj ∅), [parse_warning filePath]. split; [done|by right].
  - exists (JObj ∅), []. rewrite app_nil_r. split; [by destruct w|by left].
Qed.

(** The outcomes of [addPackageScripts]: the events are its first line,
    at most one warning and, where it completes, the write and the line
    that reports it. *)
Lemma addPackageScripts_trace (w : world) (r : result unit) (w' : world) :
  addPackageScripts w = (r, w') →
  ∃ t, (t = [] ∨ t = [parse_warning (js "package.json")])
       ∧ ((∃ data,
             r = Normal ()
             ∧ trace w' =
                 trace w ++ [scripts_step] ++ t
                 ++ [EvWrite (js "package.json") data; scripts_done])
          ∨ ((r = Throw TypeError ∨ r = Throw SystemError)
             ∧ trace w' = trace w ++ [scripts_step] ++ t)).
Proof.
  intros Hrun.
  destruct (readJson_trace (js "package.json") (record scripts_step w))
    as (pkg & t & Hread & Ht).
  cbn in Hread. rewrite <- app_assoc in Hread.
  rewrite (addPackageScripts_after_read w pkg t Hread) in Hrun.
  exists t. split; [done|].
  destruct (assign_scripts pkg) as [data|];
    [destruct (is_directory w _)|]; injection Hrun as <- <-.
  - right. split; [by right|done].
  - left. by eexists.
  - right. split; [by left|done].
Qed.

Lemma follows_addPackageScripts :
  runs addPackageScripts
    (follows [Wrote (js "package.json")]
       [(TypeError, []); (SystemError, [])] false).
Proof.
  intros w r w' Hrun.
  destruct (addPackageScripts_trace w r w' Hrun)
    as (t & Ht & [(data & -> & Htrace)|(Hr & Htrace)]);
    eexists; (split; [exact Htrace|]).
  - split_and!; [done| |].
    + by destruct Ht as [->| ->].
    + destruct Ht as [->| ->]; repeat apply clean_cons; try done;
        apply clean_nil.
  - assert (outline ([scripts_step] ++ t) = []
            ∧ clean ([scripts_step] ++ t)) as [Hl Hc].
    { destruct Ht as [->| ->]; (split; [done|]);
        repeat apply clean_cons; try done; apply clean_nil. }
    destruct Hr as [-> | ->]; rewrite Hl; (split; [set_solver|done]).
Qed.

Lemma follows_eq {A} l th final l' th' (m : M A) :
  runs m (follows l th final) → l = l' → th = th' →
  runs m (follows l' th' final).
Proof. by intros Hm <- <-. Qed.

Ltac follow :=
  repeat first
    [ apply follows_question
    | apply follows_setupTsConfig
    | apply follows_addPackageScripts
    | apply follows_safeExec
    | apply follows_console
    | apply follows_writeFileSync
    | apply follows_mkdirSync
    | apply follows_chdir
    | apply follows_exit0
    | progress (unfold logStep, logSuccess, writeJson)
    | apply follows_bind; [|intros ?] ].

Lemma follows_createProject name answer port :
  runs (createProject name answer port)
    (follows (workflow_plan name answer) (workflow_throws name answer) true).
Proof.
  eapply follows_eq.
  - unfold createProject, on_initialize_project, on_use_default_npm_init,
      on_setup_tsconfig, on_initialize_git, on_install_dependencies,
      on_add_package_scripts, on_configure_nodemon, on_finish,
      createProjectDir, initNpm, setPackageModule, createSrcMain,
      createGitAndIgnore, configureNodemon.
    follow.
  - reflexivity.
  - reflexivity.
Qed.

Lemma workflow_throws_prefix name answer (e : exn) (o : list step) :
  (e, o) ∈ workflow_throws name answer →
  o `prefix_of` workflow_plan name answer
  ∧ (length o < 16)%nat
  ∧ (e = TypeError → o = take 14 (workflow_plan name answer)).
Proof.
  unfold workflow_throws. rewrite !elem_of_cons, elem_of_nil.
  intros Hin. destruct_or!; simplify_eq;
    (split; [apply prefix_take|]; split; [cbn; lia|done]).
Qed.

(** The actions of a run are an initial part of the plan. *)
Lemma outline_createProject (name answer port : list N) (w : world)
    (r : result unit) (w' : world) (t : list event) :
  createProject name answer port w = (r, w') →
  trace w' = trace w ++ t →
  outline t `prefix_of` workflow_plan name answer.
Proof.
  intros Hrun Htrace.
  destruct (follows_createProject _ _ _ _ _ _ Hrun) as (t' & Ht & Hcase).
  rewrite Ht in Htrace. apply app_inv_head in Htrace. subst t'.
  destruct r as [a|e|c].
  - by destruct Hcase.
  - destruct Hcase as [Hin _]. by apply workflow_throws_prefix in Hin as [? _].
  - destruct Hcase as [(_ & _ & -> & _)|(_ & ? & _)]; done.
Qed.


(** X15. A run of the workflow ends in one of four ways: it exits with
    status 0, and then no command failed; it exits with status 1, right
    after a failed command and the line that reports it; it throws a
    [TypeError], and then the two install commands have succeeded and
    neither [package.json] nor [nodemon.json] is written; or it throws
    the error of a file-system call.  It never returns. *)
Theorem createProject_outcomes (name answer port : list N)
    (w : world) (r : result unit) (w' : world) :
  createProject name answer port w = (r, w') →
  ∃ t, trace w' = trace w ++ t
       ∧ ((r = Exit 0 ∧ clean t)
          ∨ (r = Exit 1 ∧ failed_last t)
          ∨ (r = Throw TypeError ∧ clean t
             ∧ outline t ++ [Wrote (js "package.json");
                             Wrote (js "nodemon.json")]
               = workflow_plan name answer)
          ∨ (r = Throw SystemError ∧ clean t)).
Proof.
  intros Hrun.
  destruct (follows_createProject _ _ _ _ _ _ Hrun) as (t & Ht & Hcase).
  exists t. split; [done|]. destruct r as [a|e|c].
  - by destruct Hcase.
  - destruct Hcase as [Hin Hclean].
    pose proof (workflow_throws_prefix _ _ _ _ Hin) as (_ & _ & Htype).
    destruct e.
    + unfold workflow_throws in Hin.
      rewrite !elem_of_cons, elem_of_nil in Hin.
      destruct_or!; simplify_eq.
    + right; right; left. split_and!; [done..|].
      by rewrite Htype.
    + by right; right; right.
    + unfold workflow_throws in Hin.
      rewrite !elem_of_cons, elem_of_nil in Hin.
      destruct_or!; simplify_eq.
  - destruct Hcase as [(-> & _ & _ & Hclean)|(-> & _ & Hlast)].
    + by left.
    + by right; left.
Qed.

Lemma in_plan (name answer port : list N) (w : world) (r : result unit)
    (w' : world) (t : list event) (e : event) (s : step) :
  createProject name answer port w = (r, w') →
  trace w' = trace w ++ t →
  e ∈ t → step_of e = Some s → s ∈ workflow_plan name answer.
Proof.
  intros Hrun Htrace Hin Hs.
  destruct (outline_createProject _ _ _ _ _ _ _ Hrun Htrace) as [k ->].
  apply elem_of_app. left. by apply (outline_elem_of e).
Qed.

(** X16. The commands that a run of the workflow executes are among six
    fixed command lines, and only [git init] runs with its output
    discarded: nothing that the user enters reaches a command line. *)
Theorem createProject_runs_fixed_commands (name answer port : list N)
    (w : world) (r : result unit) (w' : world) (t : list event)
    (command : list N) (quiet : bool) (status : Z) :
  createProject name answer port w = (r, w') →
  trace w' = trace w ++ t →
  EvExec command quiet status ∈ t →
  (command, quiet)
  ∈ [ (js "npm init -y", false);
      (js "npm init", false);
      (js "npm pkg set type=module", false);
      (js "git init", true);
      (js "npm install express", false);
      (js "npm install -D typescript ts-node nodemon @types/node @types/express",
       false) ].
Proof.
  intros Hrun Htrace Hin.
  pose proof (in_plan _ _ _ _ _ _ _ _ (Ran command quiet) Hrun Htrace Hin
                eq_refl) as Hplan.
  unfold workflow_plan, npm_init_command, install_express, install_dev
    in Hplan.
  rewrite ?elem_of_cons, ?elem_of_nil in Hplan.
  destruct (useDefault_of answer); destruct_or!; simplify_eq; set_solver.
Qed.


(** *** What is written *)

Lemma emits_attempt {A} (E : event → Prop) (m : M A) (e : event) :
  (∀ w, (∃ a w', m w = (Normal a, w') ∧ trace w' = trace w ++ [e])
        ∨ (∃ x, m w = (Throw x, w))) →
  E e → emits E m.
Proof.
  intros Hm He w r w' Hrun.
  destruct (Hm w) as [(a & w1 & Hrun1 & Ht)|(x & Hrun1)];
    rewrite Hrun1 in Hrun; injection Hrun as <- <-.
  - exists [e]. split; [done|]. by constructor.
  - exists []. by rewrite app_nil_r.
Qed.

Lemma emits_emit (E : event → Prop) (e : event) : E e → emits E (emit e).
Proof. apply emits_attempt. intros w. left. by eexists _, _. Qed.

Lemma emits_writeFileSync (E : event → Prop) path data :
  E (EvWrite path data) → emits E (writeFileSync path data).
Proof.
  apply emits_attempt. intros w. unfold writeFileSync.
  destruct (is_directory _ _); [right; by eexists|left; by eexists _, _].
Qed.

Lemma emits_mkdirSync (E : event → Prop) path :
  E (EvMkdir path) → emits E (mkdirSync path).
Proof.
  apply emits_attempt. intros w. unfold mkdirSync.
  destruct (is_file _ _); [right; by eexists|left; by eexists _, _].
Qed.

Lemma emits_chdir (E : event → Prop) path :
  E (EvChdir path) → emits E (chdir path).
Proof.
  apply emits_attempt. intros w. unfold chdir.
  destruct (is_directory _ _); [left; by eexists _, _|right; by eexists].
Qed.

Lemma emits_exit {A} (E : event → Prop) code :
  emits E (process_exit code : M A).
Proof. intros w r w' [= <- <-]. exists []. by rewrite app_nil_r. Qed.

Lemma emits_question {B} (E : event → Prop) prompt answer
    (f : list N → M B) :
  E (EvQuestion prompt answer) → emits E (f answer) →
  emits E (question prompt answer ≫= f).
Proof.
  intros He Hf w r w'. rewrite question_run. intros Hrun.
  destruct (Hf _ _ _ Hrun) as (t & Ht & HE).
  exists (EvQuestion prompt answer :: t). cbn in Ht.
  rewrite Ht, <- app_assoc. split; [done|]. by constructor.
Qed.

Lemma emits_setupTsConfig port : emits (written_as port) setupTsConfig.
Proof.
  intros w r w' Hrun.
  destruct (is_directory w (resolved w (js "tsconfig.json"))) eqn:Hd.
  - rewrite (setupTsConfig_directory w Hd) in Hrun.
    injection Hrun as <- <-. exists [tsconfig_warning]. by repeat constructor.
  - destruct (setupTsConfig_cases w Hd) as (warned & co & Heq & Hco).
    rewrite Heq in Hrun. unfold tsconfig_written in Hrun.
    injection Hrun as <- <-. eexists. split; [done|].
    apply Forall_app. split; [by destruct warned; repeat constructor|].
    repeat constructor; try done. intros _. by exists co.
Qed.

Lemma emits_addPackageScripts port :
  emits (written_as port) addPackageScripts.
Proof.
  intros w r w' Hrun.
  destruct (addPackageScripts_trace w r w' Hrun)
    as (t & Ht & [(data & -> & Htrace)|(Hr & Htrace)]);
    eexists; (split; [exact Htrace|]);
    destruct Ht as [->| ->]; by repeat constructor.
Qed.

Lemma written_as_main_ts (port : list N) :
  main_ts (portNumber_of port)
  = main_ts_head ++ (if decide (trim port = []) then js "3000" else trim port)
    ++ main_ts_tail.
Proof.
  unfold main_ts, portNumber_of, or_else.
  destruct (trim port) as [|c p]; [|done].
  cbn [ToString]. by rewrite default_port_text.
Qed.

Ltac written :=
  repeat first
    [ apply emits_question; [done|]
    | apply emits_setupTsConfig
    | apply emits_addPackageScripts
    | apply emits_command; done
    | apply emits_emit; done
    | (apply emits_writeFileSync; repeat split; try done)
    | apply emits_mkdirSync; done
    | apply emits_chdir; done
    | apply emits_exit
    | progress (unfold logStep, logSuccess, writeJson, console)
    | apply emits_bind; [|intros ?] ].

Lemma emits_createProject name answer port :
  emits (written_as port) (createProject name answer port).
Proof.
  unfold createProject, on_initialize_project, on_use_default_npm_init,
    on_setup_tsconfig, on_initialize_git, on_install_dependencies,
    on_add_package_scripts, on_configure_nodemon, on_finish,
    createProjectDir, initNpm, setPackageModule, createSrcMain,
    createGitAndIgnore, configureNodemon.
  written. intros _. apply written_as_main_ts.
Qed.

Lemma written_by_createProject (name answer port : list N) (w : world)
    (r : result unit) (w' : world) (t : list event) (e : event) :
  createProject name answer port w = (r, w') →
  trace w' = trace w ++ t →
  e ∈ t → written_as port e.
Proof.
  intros Hrun Htrace Hin.
  destruct (emits_createProject _ _ _ _ _ _ Hrun) as (t' & Ht & HE).
  rewrite Ht in Htrace. apply app_inv_head in Htrace. subst t'.
  rewrite Forall_forall in HE. by apply HE.
Qed.

(** X18. The line entered at the port prompt goes into [src/main.ts] as it
    is, trimmed and unchecked: whatever the run, the text written to
    [src/main.ts] is the fixed text before the fallback port, that line
    ([3000] when it is blank), and the fixed text after it. *)
Theorem createProject_writes_port_verbatim (name answer port : list N)
    (w : world) (r : result unit) (w' : world) (t : list event)
    (data : list N) :
  createProject name answer port w = (r, w') →
  trace w' = trace w ++ t →
  EvWrite (js "src/main.ts") data ∈ t →
  data = main_ts_head
         ++ (if decide (trim port = []) then js "3000" else trim port)
         ++ main_ts_tail.
Proof.
  intros Hrun Htrace Hin.
  destruct (written_by_createProject _ _ _ _ _ _ _ _ Hrun Htrace Hin)
    as (_ & Hmain & _).
  by apply Hmain.
Qed.

(** X19. Whatever the answers and whatever the project directory holds,
    a run of the workflow writes to [.gitignore] and to [nodemon.json]
    their fixed contents, and to [tsconfig.json] a document whose
    [compilerOptions] hold the seven canonical values. *)
Theorem createProject_writes_fixed_content (name answer port : list N)
    (w : world) (r : result unit) (w' : world) (t : list event)
    (path data : list N) :
  createProject name answer port w = (r, w') →
  trace w' = trace w ++ t →
  EvWrite path data ∈ t →
  (path = js ".gitignore" → data = gitignore_text)
  ∧ (path = js "nodemon.json" →
     data = JSON_stringify
              (JObj (list_to_map
                       [ (js "watch", JArr [JStr (js "src")]);
                         (js "ext", JStr (js "ts"));
                         (js "exec",
                          JStr (js "node --loader ts-node/esm src/main.ts"))
                       ])))
  ∧ (path = js "tsconfig.json" →
     ∃ compilerOptions,
       canonical compilerOptions
       ∧ data = JSON_stringify (tsconfig_document compilerOptions)).
Proof.
  intros Hrun Htrace Hin.
  destruct (written_by_createProject _ _ _ _ _ _ _ _ Hrun Htrace Hin)
    as (Hts & _ & Hgit & Hnodemon).
  done.
Qed.

(** *** The working directory *)

Lemma keeps_cwd_ret {A} (a : A) : keeps_cwd (mret a).
Proof. by intros w r w' [= <- <-]. Qed.

Lemma keeps_cwd_bind {A B} (m : M A) (f : A → M B) :
  keeps_cwd m → (∀ a, keeps_cwd (f a)) → keeps_cwd (m ≫= f).
Proof.
  intros Hm Hf w r w'. unfold mbind, M_bind.
  destruct (m w) as [[a|e|c] w1] eqn:Hrun; pose proof (Hm _ _ _ Hrun) as H1.
  - intros Hrun2. pose proof (Hf a _ _ _ Hrun2) as H2. cbn in *. congruence.
  - by intros [= <- <-].
  - by intros [= <- <-].
Qed.

Lemma keeps_cwd_try_catch {A} (m : M A) (h : exn → M A) :
  keeps_cwd m → (∀ e, keeps_cwd (h e)) → keeps_cwd (try_catch m h).
Proof.
  intros Hm Hh w r w'. unfold try_catch.
  destruct (m w) as [[a|e|c] w1] eqn:Hrun; pose proof (Hm _ _ _ Hrun) as H1.
  - by intros [= <- <-].
  - intros Hrun2. pose proof (Hh e _ _ _ Hrun2) as H2. cbn in *. congruence.
  - by intros [= <- <-].
Qed.

Lemma keeps_cwd_emit e : keeps_cwd (emit e).
Proof. by intros w r w' [= <- <-]. Qed.

Lemma keeps_cwd_throw {A} e : keeps_cwd (throw e : M A).
Proof. by intros w r w' [= <- <-]. Qed.

Lemma keeps_cwd_exit {A} c : keeps_cwd (process_exit c : M A).
Proof. by intros w r w' [= <- <-]. Qed.

Lemma keeps_cwd_writeFileSync p data : keeps_cwd (writeFileSync p data).
Proof.
  intros w r w'. unfold writeFileSync.
  by destruct (is_directory _ _); intros [= <- <-].
Qed.

Lemma keeps_cwd_mkdirSync p : keeps_cwd (mkdirSync p).
Proof.
  intros w r w'. unfold mkdirSync.
  by destruct (is_file _ _); intros [= <- <-].
Qed.

Lemma keeps_cwd_existsSync p : keeps_cwd (existsSync p).
Proof. by intros w r w' [= <- <-]. Qed.

Lemma keeps_cwd_readFileSync p : keeps_cwd (readFileSync p).
Proof.
  intros w r w'. unfold readFileSync.
  by destruct (files w !! resolved w p); intros [= <- <-].
Qed.

Lemma keeps_cwd_parse text : keeps_cwd (JSON_parse_or_throw text).
Proof.
  unfold JSON_parse_or_throw.
  destruct (JSON_parse text); [apply keeps_cwd_ret|apply keeps_cwd_throw].
Qed.

Lemma keeps_cwd_execSync command quiet : keeps_cwd (execSync command quiet).
Proof.
  intros w r w'. unfold execSync.
  destruct (child_process command quiet w) as [[f d] s].
  by case_bool_decide; intros [= <- <-].
Qed.

Ltac keep_cwd :=
  repeat first
    [ apply keeps_cwd_bind; [|intros ?]
    | apply keeps_cwd_try_catch; [|intros ?]
    | progress (unfold logStep, logSuccess, logWarn, logError, console,
                  question, writeJson, safeExec)
    | apply keeps_cwd_ret
    | apply keeps_cwd_emit
    | apply keeps_cwd_throw
    | apply keeps_cwd_exit
    | apply keeps_cwd_writeFileSync
    | apply keeps_cwd_mkdirSync
    | apply keeps_cwd_existsSync
    | apply keeps_cwd_readFileSync
    | apply keeps_cwd_parse
    | apply keeps_cwd_execSync
    | match goal with
      | |- keeps_cwd (if ?b then _ else _) => destruct b
      | |- keeps_cwd (match ?x with _ => _ end) => destruct x
      end ].

Lemma keeps_cwd_on_use_default_npm_init name answer port :
  keeps_cwd (on_use_default_npm_init name answer port).
Proof.
  unfold on_use_default_npm_init, on_setup_tsconfig, on_initialize_git,
    on_install_dependencies, on_add_package_scripts, on_configure_nodemon,
    on_finish, initNpm, setPackageModule, setupTsConfig,
    merged_compilerOptions, createSrcMain, createGitAndIgnore,
    addPackageScripts, readJson, configureNodemon.
  keep_cwd.
Qed.

(** The two outcomes of [createProjectDir]. *)
Lemma createProjectDir_run (projectName : list N) (w : world) :
  createProjectDir projectName w
  = if is_file w (resolved w projectName) then (Throw SystemError, w)
    else
      (Normal (),
       World (files w) ({[resolved w projectName]} ∪ dirs w)
         (resolved w projectName)
         (trace w
          ++ [ EvMkdir projectName;
               EvChdir projectName;
               EvConsole Out
                 ([0x2705] ++ js " " ++ js "Project directory '"
                  ++ projectName ++ js "' created and entered") ])).
Proof.
  unfold createProjectDir, logSuccess, mkdirSync, chdir. munfold.
  destruct (is_file w (resolved w projectName)) eqn:Hfile; [done|].
  unfold resolved in *. cbn.
  replace (is_directory _ _) with true; [cbn; by rewrite <- !app_assoc|].
  symmetry. unfold is_directory. cbn.
  unfold is_file in *. cbn. rewrite Hfile. cbn.
  apply bool_decide_eq_true. set_solver.
Qed.

Lemma cwd_after_createProject (name answer port : list N)
    (w : world) (r : result unit) (w' : world) :
  createProject name answer port w = (r, w') →
  cwd w' = if is_file w (resolved w (projectName_of name)) then cwd w
           else resolved w (projectName_of name).
Proof.
  unfold createProject, on_initialize_project. rewrite question_run.
  unfold mbind at 1, M_bind at 1. rewrite createProjectDir_run.
  change (is_file (record _ w) (resolved (record _ w) ?p))
    with (is_file w (resolved w p)).
  destruct (is_file w _); [by intros [= <- <-]|].
  intros Hrun.
  by rewrite (keeps_cwd_on_use_default_npm_init _ _ _ _ _ _ Hrun).
Qed.


(** *** A successful run *)

Lemma on_success_bind {A B} (P : world → Prop) l th (m : M A)
    (f : A → M B) :
  runs m (follows l th false) → (∀ a, on_success P (f a)) →
  on_success P (m ≫= f).
Proof.
  intros Hm Hf w r w'. unfold mbind, M_bind.
  destruct (m w) as [[a|e|c] w1] eqn:Hrun.
  - apply Hf.
  - by intros [= <- <-].
  - destruct (Hm _ _ _ Hrun) as (t & _ & [(_ & ? & _)|(-> & _)]); [done|].
    by intros [= <- <-].
Qed.

Lemma on_success_question {B} (P : world → Prop) prompt answer
    (f : list N → M B) :
  on_success P (f answer) → on_success P (question prompt answer ≫= f).
Proof. intros Hf w r w'. rewrite question_run. apply Hf. Qed.

Lemma on_success_on_configure_nodemon name :
  on_success has_nodemon_config (on_configure_nodemon name).
Proof.
  intros w r w'.
  unfold on_configure_nodemon, configureNodemon, on_finish, logStep,
    logSuccess, writeJson, writeFileSync.
  munfold. unfold resolved. cbn.
  destruct (is_directory _ _); [by intros [= <- <-]|].
  intros [= <- <-] _. unfold has_nodemon_config, resolved. cbn.
  apply lookup_insert_eq.
Qed.

Lemma on_success_createProject name answer port :
  on_success has_nodemon_config (createProject name answer port).
Proof.
  unfold createProject, on_initialize_project, on_use_default_npm_init,
    on_setup_tsconfig, on_initialize_git, on_install_dependencies,
    on_add_package_scripts.
  repeat first
    [ apply on_success_on_configure_nodemon
    | apply on_success_question
    | (eapply on_success_bind;
       [ unfold createProjectDir, initNpm, setPackageModule, createSrcMain,
           createGitAndIgnore; follow
       | intros ? ]) ].
Qed.

(** X21. When a run of the workflow exits with status 0, the working
    directory is the project directory and its [nodemon.json] holds the
    fixed configuration. *)
Theorem createProject_success_leaves_nodemon_config
    (name answer port : list N) (w w' : world) :
  createProject name answer port w = (Exit 0, w') →
  cwd w' = resolved w (projectName_of name)
  ∧ files w' !! path_resolve (cwd w') (js "nodemon.json")
    = Some (JSON_stringify
              (JObj (list_to_map
                       [ (js "watch", JArr [JStr (js "src")]);
                         (js "ext", JStr (js "ts"));
                         (js "exec",
                          JStr (js "node --loader ts-node/esm src/main.ts"))
                       ]))).
Proof.
  intros Hrun. split.
  - rewrite (cwd_after_createProject _ _ _ _ _ _ Hrun).
    destruct (is_file w _) eqn:Hfile; [|done].
    revert Hrun. unfold createProject, on_initialize_project.
    rewrite question_run. unfold mbind at 1, M_bind at 1.
    rewrite createProjectDir_run.
    change (is_file (record _ w) (resolved (record _ w) ?p))
      with (is_file w (resolved w p)).
    by rewrite Hfile.
  - by apply (on_success_createProject _ _ _ _ _ _ Hrun).
Qed.

End Whole.

(** * Worked examples *)

Module Examples.
Import Scenario.

(** C1 at the project whose [tsconfig.json] sets [module] to [commonjs]:
    the configuration written has [module] [ESNext]. *)
Lemma setupTsConfig_canonical_keys_witness :
  files project_world !! js "/home/dev/tsconfig.json" = Some old_tsconfig_text
  ∧ JSON_parse (NodeRuntime := files_runtime)
      (removeJsonComments old_tsconfig_text)
    = Some (JObj old_tsconfig)
  ∧ old_compilerOptions !! js "module" = Some (jstr "commonjs")
  ∧ ∃ (compilerOptions : gmap (list N) json) w',
      setupTsConfig (H := files_runtime) project_world = (Normal (), w')
      ∧ files w' !! js "/home/dev/tsconfig.json"
        = Some (JSON_stringify (NodeRuntime := files_runtime)
                  (JObj (list_to_map
                           [ (js "compilerOptions", JObj compilerOptions);
                             (js "include", JArr [JStr (js "src/**/*")]);
                             (js "exclude",
                              JArr [JStr (js "node_modules");
                                    JStr (js "dist")]) ])))
      ∧ compilerOptions !! js "module" = Some (jstr "ESNext").
Proof.
  split; [vm_compute; reflexivity|].
  split; [vm_compute; reflexivity|].
  split; [vm_compute; reflexivity|].
  destruct (setupTsConfig_canonical_keys (H := files_runtime) project_world
              old_tsconfig_text (JObj old_tsconfig))
    as (compilerOptions & w' & Hrun & Hfiles & Hmodule & _).
  - vm_compute; reflexivity.
  - vm_compute; reflexivity.
  - exists compilerOptions, w'. split; [exact Hrun|]. split; [|exact Hmodule].
    rewrite Hfiles. exact (lookup_insert_eq _ _ _).
Defined.

(** The merge at the same project: [sourceMap], which is not canonical, is
    kept. *)
Example setupTsConfig_keeps_sourceMap :
  ∃ (compilerOptions : gmap (list N) json) w',
    setupTsConfig (H := files_runtime) project_world = (Normal (), w')
    ∧ files w' !! js "/home/dev/tsconfig.json"
      = Some (JSON_stringify (NodeRuntime := files_runtime)
                (JObj (list_to_map
                         [ (js "compilerOptions", JObj compilerOptions);
                           (js "include", JArr [JStr (js "src/**/*")]);
                           (js "exclude",
                            JArr [JStr (js "node_modules");
                                  JStr (js "dist")]) ])))
    ∧ compilerOptions !! js "sourceMap" = Some (JBool true).
Proof.
  destruct (setupTsConfig_keeps_stripped_options (H := files_runtime)
              project_world old_tsconfig_text (JObj old_tsconfig)
              (Some (JObj old_compilerOptions)) (js "sourceMap") (JBool true))
    as (compilerOptions & w' & Hrun & Hfiles & Hkept).
  - vm_compute; reflexivity.
  - vm_compute; reflexivity.
  - vm_compute; reflexivity.
  - vm_compute; reflexivity.
  - apply (bool_decide_unpack _). vm_compute. exact I.
  - exists compilerOptions, w'. split; [exact Hrun|]. split; [|exact Hkept].
    rewrite Hfiles. exact (lookup_insert_eq _ _ _).
Qed.

(** C2 at the configuration whose [sourceRoot] is a URL: the file is valid
    JSON and holds the option, its stripped text is cut inside the string
    and does not parse, and the configuration written has no
    [sourceRoot]. *)
Lemma setupTsConfig_drops_option_of_valid_file_witness :
  JSON_parse (NodeRuntime := files_runtime) url_tsconfig_text
  = Some (JObj url_tsconfig)
  ∧ removeJsonComments url_tsconfig_text
    = js "{" ++ dq ++ js "compilerOptions" ++ dq ++ js ": {" ++ dq
      ++ js "sourceRoot" ++ dq ++ js ": " ++ dq ++ js "https:"
  ∧ ∃ (compilerOptions : gmap (list N) json) w',
      setupTsConfig (H := files_runtime) url_world = (Normal (), w')
      ∧ files w' !! js "/home/dev/tsconfig.json"
        = Some (JSON_stringify (NodeRuntime := files_runtime)
                  (JObj (list_to_map
                           [ (js "compilerOptions", JObj compilerOptions);
                             (js "include", JArr [JStr (js "src/**/*")]);
                             (js "exclude",
                              JArr [JStr (js "node_modules");
                                    JStr (js "dist")]) ])))
      ∧ compilerOptions !! js "sourceRoot" = None.
Proof.
  split; [vm_compute; reflexivity|].
  split; [vm_compute; reflexivity|].
  destruct (setupTsConfig_drops_option_of_valid_file (H := files_runtime)
              url_world url_tsconfig_text (JObj url_tsconfig)
              (Some (JObj (list_to_map
                             [ (js "sourceRoot",
                                jstr "https://example.com/src") ])))
              (js "sourceRoot") (jstr "https://example.com/src"))
    as (compilerOptions & w' & Hrun & Hfiles & Hdropped & _).
  - vm_compute; reflexivity.
  - vm_compute; reflexivity.
  - vm_compute; reflexivity.
  - vm_compute; reflexivity.
  - apply (bool_decide_unpack _). vm_compute. exact I.
  - vm_compute; reflexivity.
  - exists compilerOptions, w'. split; [exact Hrun|]. split; [|exact Hdropped].
    rewrite Hfiles. exact (lookup_insert_eq _ _ _).
Defined.

(** The same defect alters an option: the valid configuration whose
    [rootDirs] is [["src/**/*"]] is stripped to one whose [rootDirs] is
    [["src*"]], and that value is written. *)
Example setupTsConfig_alters_glob_option :
  JSON_parse (NodeRuntime := files_runtime) glob_tsconfig_text
  = Some (JObj glob_tsconfig)
  ∧ removeJsonComments glob_tsconfig_text = star_tsconfig_text
  ∧ ∃ (compilerOptions : gmap (list N) json) w',
      setupTsConfig (H := files_runtime) glob_world = (Normal (), w')
      ∧ files w' !! js "/home/dev/tsconfig.json"
        = Some (JSON_stringify (NodeRuntime := files_runtime)
                  (JObj (list_to_map
                           [ (js "compilerOptions", JObj compilerOptions);
                             (js "include", JArr [JStr (js "src/**/*")]);
                             (js "exclude",
                              JArr [JStr (js "node_modules");
                                    JStr (js "dist")]) ])))
      ∧ compilerOptions !! js "rootDirs" = Some (JArr [JStr (js "src*")]).
Proof.
  split; [vm_compute; reflexivity|].
  split; [vm_compute; reflexivity|].
  destruct (setupTsConfig_keeps_stripped_options (H := files_runtime)
              glob_world glob_tsconfig_text (JObj star_tsconfig)
              (Some (JObj (list_to_map
                             [ (js "rootDirs", JArr [jstr "src*"]) ])))
              (js "rootDirs") (JArr [jstr "src*"]))
    as (compilerOptions & w' & Hrun & Hfiles & Hkept).
  - vm_compute; reflexivity.
  - vm_compute; reflexivity.
  - vm_compute; reflexivity.
  - vm_compute; reflexivity.
  - apply (bool_decide_unpack _). vm_compute. exact I.
  - exists compilerOptions, w'. split; [exact Hrun|]. split; [|exact Hkept].
    rewrite Hfiles. exact (lookup_insert_eq _ _ _).
Qed.

(** C3 at a project whose [tsconfig.json] is truncated. *)
Lemma setupTsConfig_unparsable_falls_back_witness :
  ∃ w',
    setupTsConfig (H := files_runtime) broken_world = (Normal (), w')
    ∧ files w' !! js "/home/dev/tsconfig.json"
      = Some (JSON_stringify (NodeRuntime := files_runtime)
                (JObj (list_to_map
                   [ (js "compilerOptions",
                      JObj (list_to_map
                              [ (js "module", JStr (js "ESNext"));
                                (js "target", JStr (js "ES2020"));
                                (js "outDir", JStr (js "dist"));
                                (js "rootDir", JStr (js "src"));
                                (js "strict", JBool true);
                                (js "esModuleInterop", JBool true);
                                (js "moduleResolution", JStr (js "node")) ]));
                     (js "include", JArr [JStr (js "src/**/*")]);
                     (js "exclude",
                      JArr [JStr (js "node_modules"); JStr (js "dist")]) ]))).
Proof.
  destruct (setupTsConfig_unparsable_falls_back (H := files_runtime)
              broken_world (js "{ " ++ dq ++ js "compilerOptions"))
    as [Hrun _].
  - vm_compute; reflexivity.
  - vm_compute; reflexivity.
  - eexists. split; [exact Hrun|]. exact (lookup_insert_eq _ _ _).
Defined.


(** C9 in an empty directory, for the answer [8080]. *)
Lemma createSrcMain_writes_template_witness :
  let run :=
    createSrcMain (H := files_runtime) (portNumber_of (js "8080"))
      empty_world in
  run.1 = Normal ()
  ∧ files run.2 !! js "/home/dev/src/main.ts"
    = Some (main_ts_head ++ js "8080" ++ main_ts_tail)
  ∧ js "/home/dev/src" ∈ dirs run.2.
Proof.
  destruct (createSrcMain_writes_template (H := files_runtime)
              (portNumber_of (js "8080")) empty_world)
    as (Hrun & _).
  - vm_compute; reflexivity.
  - vm_compute; reflexivity.
  - apply (bool_decide_unpack _). vm_compute. exact I.
  - cbn zeta. rewrite Hrun. split; [reflexivity|].
    split; [exact (lookup_insert_eq _ _ _)|].
    apply (bool_decide_unpack _). vm_compute. exact I.
Defined.

(** Where [src] is a regular file, [createSrcMain] throws and leaves the
    world as it is. *)
Example createSrcMain_throws_on_src_file :
  createSrcMain (H := files_runtime) (Num 3000) src_file_world
  = (Throw SystemError, src_file_world).
Proof. vm_compute. reflexivity. Qed.

(** The command that [initNpm] runs for the answers [ N ] and [no]:
    [npm init] for the first, [npm init -y] for the second. *)
Example initNpm_commands :
  trace (initNpm (H := files_runtime)
           (useDefault_of (H := files_runtime) (js " N ")) empty_world).2
  = [ EvConsole Out ([0xD83D; 0xDC49] ++ js " " ++ js "Initializing npm...");
      EvExec (js "npm init") false 0;
      EvConsole Out ([0x2705] ++ js " " ++ js "npm initialized") ]
  ∧ trace (initNpm (H := files_runtime)
             (useDefault_of (H := files_runtime) (js "no")) empty_world).2
    = [ EvConsole Out
          ([0xD83D; 0xDC49] ++ js " " ++ js "Initializing npm...");
        EvExec (js "npm init -y") false 0;
        EvConsole Out ([0x2705] ++ js " " ++ js "npm initialized") ].
Proof. split; vm_compute; reflexivity. Qed.

(** Outside the data model of the manifest: when [scripts] is [true], the
    assignment [pkg.scripts.dev = "nodemon"] throws a [TypeError] and no
    file is written. *)
Lemma addPackageScripts_throws_on_scripts_true :
  files odd_world !! js "/home/dev/package.json" = Some odd_manifest_text
  ∧ JSON_parse (NodeRuntime := files_runtime) odd_manifest_text
    = Some (JObj odd_manifest)
  ∧ (addPackageScripts (H := files_runtime) odd_world).1 = Throw TypeError
  ∧ files (addPackageScripts (H := files_runtime) odd_world).2
    = files odd_world.
Proof. split_and!; vm_compute; reflexivity. Qed.

(** C5 at a manifest with the script [lint]: it is kept. *)
Lemma addPackageScripts_sets_three_scripts_witness :
  scripts_is_map old_manifest
  ∧ set_scripts (scripts_of old_manifest) !! js "lint"
    = Some (jstr "eslint .")
  ∧ set_scripts (scripts_of old_manifest) !! js "dev" = Some (jstr "nodemon").
Proof.
  assert (scripts_is_map old_manifest) as Hmap by (vm_compute; exact I).
  split; [exact Hmap|].
  destruct (addPackageScripts_sets_three_scripts (H := files_runtime)
              project_world old_manifest_text old_manifest)
    as (_ & Hdev & _ & _ & Hother & _).
  - vm_compute; reflexivity.
  - vm_compute; reflexivity.
  - exact Hmap.
  - split; [|exact Hdev].
    rewrite Hother.
    + vm_compute; reflexivity.
    + apply (bool_decide_unpack _). vm_compute. exact I.
Defined.

(** The whole workflow for the answers [demo], blank and [8080] in an empty
    directory, every command succeeding: the commands run and the files
    written, in order, and the exit status. *)
Example demo_run :
  let run :=
    createProject (H := files_runtime) (js "demo") (js "") (js "8080")
      empty_world in
  run.1 = Exit 0
  ∧ omap (λ e, match e with
               | EvExec command _ _ => Some command
               | EvWrite path _ => Some path
               | _ => None
               end) (trace run.2)
    = [ js "npm init -y"; js "npm pkg set type=module"; js "tsconfig.json";
        js "src/main.ts"; js "git init"; js ".gitignore"; install_express;
        install_dev; js "package.json"; js "nodemon.json" ].
Proof. split; vm_compute; reflexivity. Qed.

(** C6 (as stated) fails: in the run for the answers [demo], blank and
    [8080] in which [npm install express] exits with status 1, the process
    exits with status 1 but [src/main.ts] is written before that command
    runs. *)
Lemma entrypoint_written_before_failed_install :
  let run :=
    createProject (H := failing_runtime) (js "demo") (js "") (js "8080")
      empty_world in
  is_install install_express
  ∧ run.1 = Exit 1
  ∧ ∃ t1 t2,
      trace run.2 = t1 ++ EvExec install_express false 1 :: t2
      ∧ EvWrite (js "src/main.ts") (main_ts (Str (js "8080"))) ∈ t1.
Proof.
  split; [by left|]. split; [vm_compute; reflexivity|].
  exists (take 23 (trace failed_run.2)), (drop 24 (trace failed_run.2)).
  split; [vm_compute; reflexivity|].
  apply (bool_decide_unpack _). vm_compute. exact I.
Defined.

(** C6 (amended) at the same run. *)
Lemma failed_install_halts_before_nodemon_witness :
  failed_run.1 = Exit 1
  ∧ ¬ writes (js "nodemon.json") (trace failed_run.2)
  ∧ writes (js "src/main.ts") (take 23 (trace failed_run.2)).
Proof.
  destruct (failed_install_halts_before_nodemon (H := failing_runtime)
              (js "demo") (js "") (js "8080") empty_world
              failed_run.1 failed_run.2
              (take 23 (trace failed_run.2)) install_express false 1
              (drop 24 (trace failed_run.2)))
    as (Hexit & Hnodemon & Hmain).
  - vm_compute; reflexivity.
  - vm_compute; reflexivity.
  - by left.
  - done.
  - split; [exact Hexit|]. split; [|exact Hmain].
    intros Hw. apply Hnodemon.
    replace (take 23 (trace failed_run.2)
             ++ EvExec install_express false 1 :: drop 24 (trace failed_run.2))
      with (trace failed_run.2) by (vm_compute; reflexivity).
    exact Hw.
Defined.

(** C7 at the same run: the failed command is the last but one event. *)
Lemma failed_command_is_fatal_witness :
  failed_run.1 = Exit 1
  ∧ drop 24 (trace failed_run.2)
    = [EvConsole Err (fail_message install_express)].
Proof.
  destruct (failed_command_is_fatal (H := failing_runtime)
              (js "demo") (js "") (js "8080") empty_world
              failed_run.1 failed_run.2
              (take 23 (trace failed_run.2)) install_express false 1
              (drop 24 (trace failed_run.2)))
    as (Hexit & Hlast & _).
  - vm_compute; reflexivity.
  - vm_compute; reflexivity.
  - done.
  - split; [exact Hexit|exact Hlast].
Defined.


(** ** The further properties at concrete inputs *)

Import Cases.

(** X2 at a text without comments and trailing commas. *)
Lemma removeJsonComments_keeps_plain_text_witness :
  removeJsonComments (js "  {a: [1, 2], b: {c: 3}}  ")
  = js "{a: [1, 2], b: {c: 3}}".
Proof.
  rewrite removeJsonComments_keeps_plain_text; vm_compute; reflexivity.
Defined.

(** X4 in an empty directory. *)
Lemma setupTsConfig_creates_defaults_witness :
  (setupTsConfig (H := platform) empty_world).1 = Normal ()
  ∧ trace (setupTsConfig (H := platform) empty_world).2
    = [ EvWrite (js "tsconfig.json")
          (JSON_stringify (NodeRuntime := platform)
             (tsconfig_document canonical_defaults));
        tsconfig_ready ].
Proof.
  rewrite (setupTsConfig_creates_defaults (H := platform) empty_world).
  - split; reflexivity.
  - vm_compute; reflexivity.
  - apply (bool_decide_unpack _). vm_compute. exact I.
Defined.


(** X7 in an empty directory. *)
Lemma addPackageScripts_creates_manifest_witness :
  (addPackageScripts (H := platform) empty_world).1 = Normal ()
  ∧ trace (addPackageScripts (H := platform) empty_world).2
    = [ scripts_step;
        EvWrite (js "package.json")
          (JSON_stringify (NodeRuntime := platform)
             (JObj (list_to_map [ (js "scripts", JObj fixed_scripts) ])));
        scripts_done ].
Proof.
  rewrite (addPackageScripts_creates_manifest (H := platform) empty_world).
  - split; reflexivity.
  - vm_compute; reflexivity.
  - apply (bool_decide_unpack _). vm_compute. exact I.
Defined.

(** X8 at a manifest that is cut short. *)
Lemma addPackageScripts_replaces_unparsable_manifest_witness :
  trace (addPackageScripts (H := platform)
           (in_project (js "package.json") (js "{ "))).2
  = [ scripts_step;
      parse_warning (js "package.json");
      EvWrite (js "package.json")
        (JSON_stringify (NodeRuntime := platform)
           (JObj (list_to_map [ (js "scripts", JObj fixed_scripts) ])));
      scripts_done ].
Proof.
  rewrite (addPackageScripts_replaces_unparsable_manifest (H := platform)
             (in_project (js "package.json") (js "{ ")) (js "{ ")).
  - reflexivity.
  - vm_compute; reflexivity.
  - vm_compute; reflexivity.
Defined.

(** X9 at the manifest [{"scripts": true}]. *)
Lemma addPackageScripts_throws_on_scalar_scripts_witness :
  addPackageScripts (H := platform) odd_world
  = (Throw TypeError,
     World (files odd_world) ∅ (js "/home/dev") [scripts_step]).
Proof.
  rewrite (addPackageScripts_throws_on_scalar_scripts (H := platform)
             odd_world odd_manifest_text odd_manifest (JBool true)).
  - reflexivity.
  - vm_compute; reflexivity.
  - vm_compute; reflexivity.
  - vm_compute; reflexivity.
  - split; [reflexivity|exact I].
Defined.

(** X10 at the manifest [{"scripts": []}]. *)
Lemma addPackageScripts_ignores_array_scripts_witness :
  trace (addPackageScripts (H := platform)
           (in_project (js "package.json") array_manifest_text)).2
  = [ scripts_step;
      EvWrite (js "package.json")
        (JSON_stringify (NodeRuntime := platform) (JObj array_manifest));
      scripts_done ].
Proof.
  rewrite (addPackageScripts_ignores_array_scripts (H := platform)
             (in_project (js "package.json") array_manifest_text)
             array_manifest_text array_manifest []).
  - reflexivity.
  - vm_compute; reflexivity.
  - vm_compute; reflexivity.
  - vm_compute; reflexivity.
Defined.

(** X11 at a manifest that holds the three scripts. *)
Lemma addPackageScripts_keeps_injected_manifest_witness :
  trace (addPackageScripts (H := platform)
           (in_project (js "package.json") injected_manifest_text)).2
  = [ scripts_step;
      EvWrite (js "package.json")
        (JSON_stringify (NodeRuntime := platform) (JObj injected_manifest));
      scripts_done ].
Proof.
  rewrite (addPackageScripts_keeps_injected_manifest (H := platform)
             (in_project (js "package.json") injected_manifest_text)
             injected_manifest_text injected_manifest fixed_scripts).
  - reflexivity.
  - vm_compute; reflexivity.
  - vm_compute; reflexivity.
  - vm_compute; reflexivity.
  - repeat split; vm_compute; reflexivity.
Defined.

(** X13 in an empty directory: [git init] succeeds and [.gitignore] is
    written. *)
Lemma createGitAndIgnore_outcomes_witness :
  (createGitAndIgnore (H := platform) empty_world).1 = Normal ()
  ∧ files (createGitAndIgnore (H := platform) empty_world).2
    !! js "/home/dev/.gitignore"
    = Some gitignore_text.
Proof.
  destruct (createGitAndIgnore_outcomes (H := platform) empty_world)
    as (f & d & status & Hcp & _ & Hok).
  vm_compute in Hcp. injection Hcp as <- <- <-.
  rewrite Hok.
  - split; [reflexivity|]. exact (lookup_insert_eq _ _ _).
  - reflexivity.
  - vm_compute; reflexivity.
Defined.


(** X15 at the full run: it exits with status 0 and no command failed. *)
Lemma createProject_outcomes_witness :
  full_run.1 = Exit 0 ∧ clean (trace full_run.2).
Proof.
  assert (full_run.1 = Exit 0) as Hexit by (vm_compute; reflexivity).
  split; [exact Hexit|].
  destruct (createProject_outcomes (H := platform)
              (js "demo") (js "") (js "8080") empty_world
              full_run.1 full_run.2)
    as (t & Ht & Hcase).
  - vm_compute; reflexivity.
  - rewrite Ht.
    destruct Hcase as [[_ Hc]|[[Hr _]|[(Hr & _)|[Hr _]]]];
      [exact Hc|..]; rewrite Hexit in Hr; discriminate Hr.
Defined.

(** X16 at the full run, for [git init]. *)
Lemma createProject_runs_fixed_commands_witness :
  EvExec (js "git init") true 0 ∈ trace full_run.2
  ∧ (js "git init", true)
    ∈ [ (js "npm init -y", false);
        (js "npm init", false);
        (js "npm pkg set type=module", false);
        (js "git init", true);
        (js "npm install express", false);
        (js "npm install -D typescript ts-node nodemon @types/node @types/express",
         false) ].
Proof.
  assert (EvExec (js "git init") true 0 ∈ trace full_run.2) as Hin.
  { apply (bool_decide_unpack _). vm_compute. exact I. }
  split; [exact Hin|].
  apply (createProject_runs_fixed_commands (H := platform)
           (js "demo") (js "") (js "8080") empty_world
           full_run.1 full_run.2 (trace full_run.2) _ _ 0%Z).
  - vm_compute; reflexivity.
  - reflexivity.
  - exact Hin.
Defined.


(** X18 at the full run: [8080] is in [src/main.ts]. *)
Lemma createProject_writes_port_verbatim_witness :
  EvWrite (js "src/main.ts") (main_ts_head ++ js "8080" ++ main_ts_tail)
  ∈ trace full_run.2
  ∧ main_ts_head ++ js "8080" ++ main_ts_tail
    = main_ts_head
      ++ (if decide (trim (js "8080") = []) then js "3000"
          else trim (js "8080"))
      ++ main_ts_tail.
Proof.
  assert (EvWrite (js "src/main.ts")
            (main_ts_head ++ js "8080" ++ main_ts_tail)
          ∈ trace full_run.2) as Hin.
  { apply (bool_decide_unpack _). vm_compute. exact I. }
  split; [exact Hin|].
  apply (createProject_writes_port_verbatim (H := platform)
           (js "demo") (js "") (js "8080") empty_world
           full_run.1 full_run.2 (trace full_run.2)).
  - vm_compute; reflexivity.
  - reflexivity.
  - exact Hin.
Defined.

(** X19 at the full run, for [.gitignore]. *)
Lemma createProject_writes_fixed_content_witness :
  EvWrite (js ".gitignore") gitignore_text ∈ trace full_run.2.
Proof.
  assert (∃ data, EvWrite (js ".gitignore") data ∈ trace full_run.2)
    as [data Hin].
  { exists gitignore_text. apply (bool_decide_unpack _). vm_compute. exact I. }
  destruct (createProject_writes_fixed_content (H := platform)
              (js "demo") (js "") (js "8080") empty_world
              full_run.1 full_run.2 (trace full_run.2)
              (js ".gitignore") data)
    as (Hgit & _).
  - vm_compute; reflexivity.
  - reflexivity.
  - exact Hin.
  - rewrite <- (Hgit eq_refl). exact Hin.
Defined.


(** X21 at the full run. *)
Lemma createProject_success_leaves_nodemon_config_witness :
  files full_run.2 !! js "/home/dev/demo/nodemon.json"
  = Some (JSON_stringify (NodeRuntime := platform)
            (JObj (list_to_map
                     [ (js "watch", JArr [JStr (js "src")]);
                       (js "ext", JStr (js "ts"));
                       (js "exec",
                        JStr (js "node --loader ts-node/esm src/main.ts")) ]))).
Proof.
  destruct (createProject_success_leaves_nodemon_config (H := platform)
              (js "demo") (js "") (js "8080") empty_world full_run.2)
    as (Hcwd & Hfile).
  - vm_compute; reflexivity.
  - rewrite <- Hfile. vm_compute; reflexivity.
Defined.

End Examples.
